(** * XWEntity: the entity runtime of [MIGRAT/xentity]

    A shallow embedding of the entity state machine ([model.py]), the
    public facade and its recency cache ([facade.py]), the error classes
    ([errors.py]) and the synthesized field accessors ([metaclass.py]),
    followed by the properties of the runtime that the specification
    states about them.

    Python objects are mutated in place and an exception leaves every
    mutation made before it: a method is a function from the object's
    state to an outcome (a value or a raised exception) together with
    the state it leaves behind. *)

From stdpp Require Import gmap strings pretty list fin_maps.
From Stdlib Require Import ZArith Lia Ascii.

Open Scope Z_scope.

(** ** Exceptions ([errors.py]) *)

(** The exception classes of [errors.py] with the arguments of their
    constructors; [ValueError] is Python's own (raised by the delegated
    accessor and by [datetime.fromisoformat]); [ForeignError] stands for
    an exception of an external collaborator (the field store, an action
    body, the interpreter when an attribute cannot be set), named by its
    class. The current state of an [xEntityStateError] is what the
    caller passes, a state name or Python's [None]. *)
Inductive exn : Type :=
| xEntityError (message : string)
| xEntityValidationError (message : string) (field constraint : option string)
| xEntityStateError (current_state : option string) (target_state : string)
    (reason : option string)
| xEntityActionError (action_name reason : string)
| xEntityNotFoundError (entity_id : string) (entity_type : option string)
| ValueError (message : string)
| ForeignError (class_name : string).

(** [xEntityStateError.__init__]: the message built from the states and
    the optional reason; an f-string writes Python's [None] as its
    name. *)
Definition state_error_message (current_state : option string) (target_state : string)
    (reason : option string) : string :=
  let current := match current_state with Some c => c | None => "None" end in
  let message :=
    "Cannot transition from '" +:+ current +:+ "' to '" +:+ target_state +:+ "'" in
  match reason with
  | Some r => if decide (r = "") then message else message +:+ ": " +:+ r
  | None => message
  end.

(** [xEntityActionError.__init__]. *)
Definition action_error_message (action_name reason : string) : string :=
  "Action '" +:+ action_name +:+ "' failed: " +:+ reason.

(** [xEntityNotFoundError.__init__]. *)
Definition not_found_error_message (entity_id : string) (entity_type : option string)
    : string :=
  match entity_type with
  | Some t =>
      if decide (t = "") then "Entity '" +:+ entity_id +:+ "' not found"
      else t +:+ " entity '" +:+ entity_id +:+ "' not found"
  | None => "Entity '" +:+ entity_id +:+ "' not found"
  end.

(** The message of an exception. *)
Definition message (e : exn) : string :=
  match e with
  | xEntityError m | xEntityValidationError m _ _ | ValueError m => m
  | xEntityStateError c t r => state_error_message c t r
  | xEntityActionError a r => action_error_message a r
  | xEntityNotFoundError i t => not_found_error_message i t
  | ForeignError c => c
  end.

(** The [details] mapping every [xEntityError] carries. *)
Definition details (e : exn) : list (string * option string) :=
  match e with
  | xEntityValidationError _ f c => [("field", f); ("constraint", c)]
  | xEntityStateError c t r =>
      [("current_state", c); ("target_state", Some t); ("reason", r)]
  | xEntityActionError a r => [("action", Some a); ("reason", Some r)]
  | xEntityNotFoundError i t => [("entity_id", Some i); ("entity_type", t)]
  | xEntityError _ | ValueError _ | ForeignError _ => []
  end.

(** ** Methods as state transformers with exceptions *)

Inductive result (A : Type) : Type :=
| Ok (a : A)
| Raise (e : exn).
Arguments Ok {A} a.
Arguments Raise {A} e.

Definition M (S A : Type) : Type := S → result A * S.

#[global] Instance M_ret {S} : MRet (M S) := λ A a s, (Ok a, s).
#[global] Instance M_bind {S} : MBind (M S) := λ A B k m s,
  match m s with
  | (Ok a, s') => k a s'
  | (Raise e, s') => (Raise e, s')
  end.

Definition raise {S A} (e : exn) : M S A := λ s, (Raise e, s).
Definition reads {S A} (f : S → A) : M S A := λ s, (Ok (f s), s).
Definition modify {S} (f : S → S) : M S unit := λ s, (Ok tt, f s).

(** Run a method of a component [T] of the state [S]. *)
Definition zoom {S T A} (proj : S → T) (upd : T → S → S) (m : M T A) : M S A :=
  λ s, let '(r, t) := m (proj s) in (r, upd t s).

(** [mapping.get(key, fallback)] on an entry that is present or absent. *)
Definition dict_get {A} (fallback : A) (entry : option A) : A :=
  match entry with Some v => v | None => fallback end.

(** ** External collaborators *)

(** The field store ([xData]) is outside the repository; the runtime uses
    it through these operations: [xData(mapping)], [to_native()],
    [get(path, default)], [set(path, value)] and [delete(path)]. The two
    writers mutate the store in place and may raise. Where Python's
    [None] may stand for a value the type is [option Value]. *)
Class FieldStore (Value Native xData : Type) : Type := {
  xData_new : Native → xData;
  to_native : xData → Native;
  data_get : string → option Value → xData → option Value;
  data_set : string → Value → M xData unit;
  data_delete : string → M xData unit;
  empty_mapping : Native
}.

(** Exporting a store and loading the export gives a store with the same
    export. *)
Class FieldStoreRoundTrip {Value Native xData} (store : FieldStore Value Native xData)
    : Prop :=
  to_native_xData_new : ∀ m : Native, to_native (xData_new m) = m.

(** A schema object ([xSchema]) as the runtime sees it: the pass/fail
    check of a whole mapping and the two attributes [_to_dict] exports.
    Schema objects are truthy. *)
Record xSchema (Native : Type) : Type := {
  validate_data : Native → bool;
  value : option string;
  schema_version : option string
}.
Arguments validate_data {Native} _ _.
Arguments value {Native} _.
Arguments schema_version {Native} _.

(** The system clock and the UUID generator: the [n]-th reading of
    [datetime.now()] and the [n]-th draw of [uuid.uuid4()], with the
    number of readings and draws made so far. *)
Record World : Type := { clock_reads : nat; uuid_draws : nat }.

Definition tick (w : World) : World :=
  {| clock_reads := S (clock_reads w); uuid_draws := uuid_draws w |}.
Definition draw (w : World) : World :=
  {| clock_reads := clock_reads w; uuid_draws := S (uuid_draws w) |}.

(** ** Entity cache ([facade.py], [xEntityCache]) *)

Module xEntityCache.

(** An [OrderedDict]: the items in order, oldest first, one per key. *)
Definition OrderedDict (V : Type) : Type := list (string * V).

Section OrderedDict.
Context {V : Type}.

Definition od_get (key : string) (d : OrderedDict V) : option V :=
  snd <$> List.find (λ kv, bool_decide (kv.1 = key)) d.

(** [key in d] *)
Definition od_contains (key : string) (d : OrderedDict V) : bool :=
  bool_decide (is_Some (od_get key d)).

Definition od_remove (key : string) (d : OrderedDict V) : OrderedDict V :=
  List.filter (λ kv, negb (bool_decide (kv.1 = key))) d.

(** [d[key] = value]: a present key keeps its place, a new key goes
    to the end. *)
Definition od_setitem (key : string) (v : V) (d : OrderedDict V) : OrderedDict V :=
  if od_contains key d
  then List.map (λ kv, if bool_decide (kv.1 = key) then (key, v) else kv) d
  else d ++ [(key, v)].

(** [d.move_to_end(key)] for a present key. *)
Definition od_move_to_end (key : string) (d : OrderedDict V) : OrderedDict V :=
  match od_get key d with
  | Some v => od_remove key d ++ [(key, v)]
  | None => d
  end.

(** [d.popitem(last=False)]: drop the oldest item. *)
Definition od_popitem_first (d : OrderedDict V) : OrderedDict V := List.tail d.
(** [list(d.keys())]: the keys, oldest first. *)
Definition od_keys (d : OrderedDict V) : list string := d.*1.
End OrderedDict.

Record t (V : Type) : Type := {
  _cache : OrderedDict V;
  _max_size : Z;
  _hit_count : Z;
  _miss_count : Z
}.
Arguments _cache {V} _.
Arguments _max_size {V} _.
Arguments _hit_count {V} _.
Arguments _miss_count {V} _.

Section Cache.
Context {V : Type}.

(** [xEntityCache.__init__] *)
Definition __init__ (max_size : Z) : t V :=
  {| _cache := []; _max_size := max_size; _hit_count := 0; _miss_count := 0 |}.

(** [_get_impl]: the value on a hit, Python's [None] on a miss. *)
Definition _get_impl (key : string) (c : t V) : option V * t V :=
  if od_contains key (_cache c)
  then
    let d := od_move_to_end key (_cache c) in
    (od_get key d,
     {| _cache := d; _max_size := _max_size c;
        _hit_count := _hit_count c + 1; _miss_count := _miss_count c |})
  else
    (None,
     {| _cache := _cache c; _max_size := _max_size c;
        _hit_count := _hit_count c; _miss_count := _miss_count c + 1 |}).

(** [_put_impl] *)
Definition _put_impl (key : string) (v : V) (c : t V) : t V :=
  let d := od_move_to_end key (od_setitem key v (_cache c)) in
  let d' := if decide (Z.of_nat (length d) > _max_size c)
            then od_popitem_first d else d in
  {| _cache := d'; _max_size := _max_size c;
     _hit_count := _hit_count c; _miss_count := _miss_count c |}.

(** [get] and [put] run the implementation, under the cache's lock
    when there is one. *)
Definition get (key : string) (c : t V) : option V * t V := _get_impl key c.
Definition put (key : string) (v : V) (c : t V) : t V := _put_impl key v c.

(** [clear]: the items go; the bound and the counters stay. *)
Definition clear (c : t V) : t V :=
  {| _cache := []; _max_size := _max_size c;
     _hit_count := _hit_count c; _miss_count := _miss_count c |}.

(** The calls a client makes on a cache, and the cache they leave. *)
Inductive op : Type :=
| Get (key : string)
| Put (key : string) (v : V)
| Clear.

Definition run_op (c : t V) (o : op) : t V :=
  match o with
  | Get key => (get key c).2
  | Put key v => put key v c
  | Clear => clear c
  end.

Definition run_ops (ops : list op) (c : t V) : t V := foldl run_op c ops.

(** The number of [get] calls among the calls. *)
Definition gets (ops : list op) : nat :=
  length (List.filter (λ o, match o with Get _ => true | _ => false end) ops).
End Cache.
Arguments op : clear implicits.

End xEntityCache.

(** ** Extensions ([model.py], [aEntity], the [iExtensible] methods)

    The methods read and write [self._extensions] and nothing else; the
    dictionary keeps its keys in the order they were first assigned. *)

Section Extensions.
Context {E : Type}.

Definition register_extension (name : string) (extension : E)
    : M (xEntityCache.OrderedDict E) unit :=
  modify (xEntityCache.od_setitem name extension).

Definition get_extension (name : string) (exts : xEntityCache.OrderedDict E) : option E :=
  xEntityCache.od_get name exts.

Definition has_extension (name : string) (exts : xEntityCache.OrderedDict E) : bool :=
  xEntityCache.od_contains name exts.

Definition list_extensions (exts : xEntityCache.OrderedDict E) : list string :=
  xEntityCache.od_keys exts.

Definition remove_extension (name : string) : M (xEntityCache.OrderedDict E) bool :=
  λ exts,
    if xEntityCache.od_contains name exts
    then (Ok true, xEntityCache.od_remove name exts)
    else (Ok false, exts).
End Extensions.

(** ** A flat field store

    The simplest store that meets the [FieldStore] interface: a mapping
    from field names to integers, whose [delete] raises [KeyError] on a
    missing path. It serves to run the runtime on concrete entities. *)

#[global] Instance flat_store : FieldStore Z (gmap string Z) (gmap string Z) := {|
  xData_new m := m;
  to_native d := d;
  data_get path dflt d := match d !! path with Some v => Some v | None => dflt end;
  data_set path v := modify (λ d, <[path := v]> d);
  data_delete path := λ d,
    match d !! path with
    | Some _ => (Ok tt, base.delete path d)
    | None => (Raise (ForeignError "KeyError"), d)
    end;
  empty_mapping := ∅
|}.

(** A store whose writes are refused for one path: [set] on ["locked"]
    raises and leaves the store as it was. *)
Definition guarded_store : FieldStore Z (gmap string Z) (gmap string Z) := {|
  xData_new m := m;
  to_native d := d;
  data_get path dflt d := match d !! path with Some v => Some v | None => dflt end;
  data_set path v := λ d,
    if decide (path = "locked") then (Raise (ForeignError "PermissionError"), d)
    else (Ok tt, <[path := v]> d);
  data_delete path := modify (λ d, base.delete path d);
  empty_mapping := ∅
|}.

(** A clock that advances one unit per reading, identifiers numbered in
    the order they are drawn, and timestamps written as a sign and a
    tally. *)
Definition step_clock (n : nat) : Z := Z.of_nat n.
Definition numbered_uuid (n : nat) : string := "uuid-" +:+ pretty n.

Fixpoint tally (n : nat) : string :=
  match n with
  | O => ""
  | S n => String "I"%char (tally n)
  end.

Definition tally_isoformat (t : Z) : string :=
  if decide (t < 0) then String "-"%char (tally (Z.to_nat (- t)))
  else String "+"%char (tally (Z.to_nat t)).

Definition tally_fromisoformat (s : string) : option Z :=
  match s with
  | String "-"%char r => Some (- Z.of_nat (String.length r))
  | String "+"%char r => Some (Z.of_nat (String.length r))
  | _ => None
  end.

(** [repr] of a string that holds no quote and nothing to escape. *)
Definition quoted (s : string) : string := "'" +:+ s +:+ "'".

(** The world before anything was drawn or read, and after one entity
    was constructed in it. *)
Definition first_world : World := {| clock_reads := 0; uuid_draws := 0 |}.
Definition example_world : World := tick (tick (draw first_world)).

(** A schema that accepts a mapping when its ["age"], if any, is
    between 0 and 150. *)
Definition age_schema : xSchema (gmap string Z) :=
  {| validate_data m := match m !! "age" with
                        | Some a => bool_decide (0 ≤ a ≤ 150)
                        | None => true
                        end;
     value := None; schema_version := None |}.

Section Runtime.

#[local] Set Default Proof Using "Type".

Context {Value Native xData : Type} `{!FieldStore Value Native xData}.

(** [datetime.now()], [uuid.uuid4()], [datetime.isoformat()] and
    [datetime.fromisoformat()] (which raises [ValueError] on a string it
    cannot read); a [datetime] is a number of microseconds. *)
Variable clock : nat → Z.
Variable uuid4 : nat → string.
Variable isoformat : Z → string.
Variable fromisoformat : string → option Z.

(** How an f-string renders a value, and how [repr] writes a string. *)
Variable format_value : Value → string.
Variable repr : string → string.

Definition datetime_now : M World Z :=
  λ w, (Ok (clock (clock_reads w)), tick w).

Definition uuid4_str : M World string :=
  λ w, (Ok (uuid4 (uuid_draws w)), draw w).

Definition datetime_fromisoformat {S} (s : string) : M S Z :=
  match fromisoformat s with
  | Some t => mret t
  | None => raise (ValueError ("Invalid isoformat string: " +:+ repr s))
  end.

(** The world next to an object [X], and the two ways into the pair. *)
Definition in_world {X A} (m : M World A) : M (World * X) A :=
  zoom fst (λ w s, (w, s.2)) m.
Definition in_self {X A} (m : M X A) : M (World * X) A :=
  zoom snd (λ x s, (s.1, x)) m.

(** Run a method on an object held in a local variable and give the
    object back; an exception propagates and the object is dropped. *)
Definition on_object {X A} (x : X) (m : M (World * X) A) : M World X :=
  λ w, let '(r, (w', x')) := m (w, x) in
       (match r with Ok _ => Ok x' | Raise e => Raise e end, w').

(** ** Field accessors ([metaclass.py], [config.py]) *)

Inductive PerformanceMode : Type := PERFORMANCE | MEMORY | BALANCED | AUTO.

Record xEntityConfig : Type := {
  performance_mode : PerformanceMode;
  enable_validation : bool
}.

(** [xEntityConfig()]: the defaults of the dataclass. *)
Definition default_config : xEntityConfig :=
  {| performance_mode := PERFORMANCE; enable_validation := true |}.

(** The schema of one field: its check of a value and its default. *)
Record FieldSchema : Type := {
  validate : Value → bool;
  _default : option Value
}.

Record PropertyInfo : Type := {
  name : string;
  schema : option FieldSchema;
  default : option Value;
  is_required : bool
}.

(** [PropertyInfo.__init__]: the schema's default stands in for a missing
    one; a property without any default is required. *)
Definition PropertyInfo__init__ (name : string) (schema : option FieldSchema)
    (default : option Value) : PropertyInfo :=
  let d :=
    match default, schema with
    | None, Some s => match _default s with Some v => Some v | None => default end
    | _, _ => default
    end in
  {| name := name; schema := schema; default := d;
     is_required := match d with None => true | Some _ => false end |}.

Definition private_name (prop : PropertyInfo) : string := "_" +:+ name prop.

(** What the class of an instance holds under a name, as [getattr] and
    [setattr] find it in the class and its bases: a property that a
    metaclass put there, a slot, or another attribute of the class (a
    method, a constant), which an attribute of the instance hides. *)
Inductive ClassAttribute : Type :=
| DirectProperty (prop : PropertyInfo)
| DelegatedProperty (prop : PropertyInfo)
| Slot
| ClassValue (value : Value).

(** An instance of a synthesized class: its class, its attribute
    dictionary if it has one (a class that declares [__slots__] and
    inherits no dictionary gives its instances none, as the facade
    [xEntity] does), the values of the slots that are set, and the
    field store that [self.data] gives. *)
Record Instance : Type := {
  __class__ : gmap string ClassAttribute;
  __dict__ : option (gmap string Value);
  slot_values : gmap string Value;
  data : xData
}.

Definition set___dict__ (d : gmap string Value) (self : Instance) : Instance :=
  {| __class__ := __class__ self; __dict__ := Some d;
     slot_values := slot_values self; data := data self |}.
Definition set_slot_values (v : gmap string Value) (self : Instance) : Instance :=
  {| __class__ := __class__ self; __dict__ := __dict__ self;
     slot_values := v; data := data self |}.
Definition set_data (d : xData) (self : Instance) : Instance :=
  {| __class__ := __class__ self; __dict__ := __dict__ self;
     slot_values := slot_values self; data := d |}.

(** [MemoryModeMetaclass._create_delegated_property]; the setter reads
    the configuration when it runs. *)
Definition delegated_getter (prop : PropertyInfo) (self : Instance) : option Value :=
  data_get (name prop) (default prop) (data self).

Definition delegated_setter (config : xEntityConfig) (prop : PropertyInfo)
    (value : Value) : M Instance unit :=
  match schema prop with
  | Some s =>
      if enable_validation config && negb (validate s value)
      then raise (ValueError
                    ("Validation failed for " +:+ name prop +:+ ": " +:+ format_value value))
      else mret tt
  | None => mret tt
  end;;
  zoom data set_data (data_set (name prop) value).

Definition _create_delegated_property (config : xEntityConfig) (prop : PropertyInfo)
    : (Instance → option Value) * (Value → M Instance unit) :=
  (delegated_getter prop, delegated_setter config prop).

(** Reading and writing an attribute where the class has no property
    of the name. A slot gives its value, and the default when it is not
    set; otherwise the attribute dictionary of the instance comes
    first, then whatever else the class has under the name, then the
    default. A slot takes the value written; otherwise the value goes
    to the attribute dictionary, and an instance without one raises
    [AttributeError]. *)
Definition stored_attribute (attr : string) (dflt : option Value) (self : Instance)
    : option Value :=
  match __class__ self !! attr with
  | Some Slot => match slot_values self !! attr with Some v => Some v | None => dflt end
  | Some (ClassValue v) => Some (dict_get v (__dict__ self ≫= (λ d, d !! attr)))
  | _ => match __dict__ self ≫= (λ d, d !! attr) with Some v => Some v | None => dflt end
  end.

Definition store_attribute (attr : string) (value : Value) : M Instance unit :=
  λ self,
    match __class__ self !! attr with
    | Some Slot => (Ok tt, set_slot_values (<[attr := value]> (slot_values self)) self)
    | _ =>
        match __dict__ self with
        | Some d => (Ok tt, set___dict__ (<[attr := value]> d) self)
        | None => (Raise (ForeignError "AttributeError"), self)
        end
    end.

(** Python's [getattr(self, attr, default)]. A property of the class
    comes first: the getter of a direct property is itself a [getattr],
    of the private name with the default of the property; the getter of
    a delegated property reads the field store. The nesting of getters
    is counted down from [fuel]; running out is the interpreter's
    [RecursionError]. *)
Fixpoint getattr_fuel (fuel : nat) (attr : string) (dflt : option Value) (self : Instance)
    : result (option Value) :=
  match __class__ self !! attr with
  | Some (DirectProperty prop) =>
      match fuel with
      | O => Raise (ForeignError "RecursionError")
      | S fuel => getattr_fuel fuel (private_name prop) (default prop) self
      end
  | Some (DelegatedProperty prop) => Ok (delegated_getter prop self)
  | _ => Ok (stored_attribute attr dflt self)
  end.

(** Python's [setattr(self, attr, value)]. A property of the class
    comes first: the setter of a direct property is itself a [setattr],
    of the private name; the setter of a delegated property checks and
    writes to the field store. *)
Fixpoint setattr_fuel (fuel : nat) (config : xEntityConfig) (attr : string) (value : Value)
    (self : Instance) : result unit * Instance :=
  match __class__ self !! attr with
  | Some (DirectProperty prop) =>
      match fuel with
      | O => (Raise (ForeignError "RecursionError"), self)
      | S fuel => setattr_fuel fuel config (private_name prop) value self
      end
  | Some (DelegatedProperty prop) => delegated_setter config prop value self
  | _ => store_attribute attr value self
  end.

(** A property reached through the private name of another has a name
    one character longer: in a class whose properties stand under their
    own names, as a metaclass puts them, no chain of getters or setters
    is longer than the longest name of the class. *)
Definition attribute_depth (self : Instance) : nat :=
  S (max_list (String.length <$> (map_to_list (__class__ self)).*1)).

Definition getattr (attr : string) (dflt : option Value) (self : Instance)
    : result (option Value) :=
  getattr_fuel (attribute_depth self) attr dflt self.

Definition setattr (config : xEntityConfig) (attr : string) (value : Value)
    : M Instance unit :=
  λ self, setattr_fuel (attribute_depth self) config attr value self.

(** [PerformanceModeMetaclass._create_direct_property]: the getter and
    the setter of the property. The setter assigns the private
    attribute; the schema check that precedes the assignment in the
    source is commented out. The configuration is the one the manager
    holds when the setter runs: a delegated property that stands under
    the private name reads it. *)
Definition direct_getter (prop : PropertyInfo) (self : Instance) : result (option Value) :=
  getattr (private_name prop) (default prop) self.

Definition direct_setter (config : xEntityConfig) (prop : PropertyInfo) (value : Value)
    : M Instance unit :=
  setattr config (private_name prop) value.

Definition _create_direct_property (config : xEntityConfig) (prop : PropertyInfo)
    : (Instance → result (option Value)) * (Value → M Instance unit) :=
  (direct_getter prop, direct_setter config prop).

(** ** Entity metadata ([model.py], [xEntityState], [xEntityMetadata]) *)

Definition DRAFT : string := "draft".
Definition VALIDATED : string := "validated".
Definition COMMITTED : string := "committed".
Definition ARCHIVED : string := "archived".

Record xEntityMetadata : Type := {
  id : string;
  type_ : string;
  state : string;
  version : Z;
  created_at : Z;
  updated_at : Z;
  tags : list string;
  metadata : gmap string Value
}.

Definition set_id (v : string) (m : xEntityMetadata) : xEntityMetadata :=
  {| id := v; type_ := type_ m; state := state m; version := version m;
     created_at := created_at m; updated_at := updated_at m;
     tags := tags m; metadata := metadata m |}.
Definition set_type (v : string) (m : xEntityMetadata) : xEntityMetadata :=
  {| id := id m; type_ := v; state := state m; version := version m;
     created_at := created_at m; updated_at := updated_at m;
     tags := tags m; metadata := metadata m |}.
Definition set_state (v : string) (m : xEntityMetadata) : xEntityMetadata :=
  {| id := id m; type_ := type_ m; state := v; version := version m;
     created_at := created_at m; updated_at := updated_at m;
     tags := tags m; metadata := metadata m |}.
Definition set_version (v : Z) (m : xEntityMetadata) : xEntityMetadata :=
  {| id := id m; type_ := type_ m; state := state m; version := v;
     created_at := created_at m; updated_at := updated_at m;
     tags := tags m; metadata := metadata m |}.
Definition set_created_at (v : Z) (m : xEntityMetadata) : xEntityMetadata :=
  {| id := id m; type_ := type_ m; state := state m; version := version m;
     created_at := v; updated_at := updated_at m;
     tags := tags m; metadata := metadata m |}.
Definition set_updated_at (v : Z) (m : xEntityMetadata) : xEntityMetadata :=
  {| id := id m; type_ := type_ m; state := state m; version := version m;
     created_at := created_at m; updated_at := v;
     tags := tags m; metadata := metadata m |}.
Definition set_tags (v : list string) (m : xEntityMetadata) : xEntityMetadata :=
  {| id := id m; type_ := type_ m; state := state m; version := version m;
     created_at := created_at m; updated_at := updated_at m;
     tags := v; metadata := metadata m |}.
Definition set_metadata (v : gmap string Value) (m : xEntityMetadata) : xEntityMetadata :=
  {| id := id m; type_ := type_ m; state := state m; version := version m;
     created_at := created_at m; updated_at := updated_at m;
     tags := tags m; metadata := v |}.

(** [xEntityMetadata.__init__]: [entity_type or "entity"]; the clock is
    read once for each timestamp. *)
Definition xEntityMetadata__init__ (entity_type : option string) : M World xEntityMetadata :=
  u ← uuid4_str;
  c ← datetime_now;
  a ← datetime_now;
  mret {| id := u;
          type_ := match entity_type with
                   | Some t => if decide (t = "") then "entity" else t
                   | None => "entity"
                   end;
          state := DRAFT; version := 1; created_at := c; updated_at := a;
          tags := []; metadata := ∅ |}.

(** The mapping [to_dict] builds and [from_dict] reads: each key is
    present with a value of the attribute's type, or absent. *)
Record MetadataDict : Type := {
  k_id : option string;
  k_type : option string;
  k_state : option string;
  k_version : option Z;
  k_created_at : option string;
  k_updated_at : option string;
  k_tags : option (list string);
  k_metadata : option (gmap string Value)
}.

(** [xEntityMetadata.to_dict] *)
Definition metadata_to_dict (m : xEntityMetadata) : MetadataDict :=
  {| k_id := Some (id m); k_type := Some (type_ m); k_state := Some (state m);
     k_version := Some (version m);
     k_created_at := Some (isoformat (created_at m));
     k_updated_at := Some (isoformat (updated_at m));
     k_tags := Some (tags m); k_metadata := Some (metadata m) |}.

(** [xEntityMetadata.from_dict]: [data.get(key, fallback)] computes its
    fallback whether or not the key is present, so an identifier is
    drawn and the clock is read twice on every call. *)
Definition metadata_from_dict (d : MetadataDict) : M (World * xEntityMetadata) unit :=
  u ← in_world uuid4_str;
  in_self (modify (set_id (dict_get u (k_id d))));;
  in_self (modify (set_type (dict_get "entity" (k_type d))));;
  in_self (modify (set_state (dict_get DRAFT (k_state d))));;
  in_self (modify (set_version (dict_get 1 (k_version d))));;
  n1 ← in_world datetime_now;
  c ← datetime_fromisoformat (dict_get (isoformat n1) (k_created_at d));
  in_self (modify (set_created_at c));;
  n2 ← in_world datetime_now;
  a ← datetime_fromisoformat (dict_get (isoformat n2) (k_updated_at d));
  in_self (modify (set_updated_at a));;
  in_self (modify (set_tags (dict_get [] (k_tags d))));;
  in_self (modify (set_metadata (dict_get ∅ (k_metadata d)))).

(** [xEntityMetadata.update_version] *)
Definition update_version : M (World * xEntityMetadata) unit :=
  in_self (modify (λ m, set_version (version m + 1) m));;
  now ← in_world datetime_now;
  in_self (modify (set_updated_at now)).

(** ** The internal entity ([model.py], [aEntity]) *)

Record PerformanceStats : Type := {
  access_count : Z;
  validation_count : Z;
  cache_hits : Z;
  cache_misses : Z
}.

(** What is registered in an action table; its behaviour is given below,
    once the entity it acts on is defined. *)
Variable Action : Type.

(** The attributes of an [aEntity] that its methods read or write. The
    transition table is the same constant in every instance and is
    [_state_transitions] below; the extensions and the lock play no part
    in the methods modelled here. *)
Record aEntity : Type := {
  _metadata : xEntityMetadata;
  _schema : option (xSchema Native);
  _data : xData;
  _actions : gmap string Action;
  _cache : gmap string Value;
  _schema_cache : option Native;
  _performance_stats : PerformanceStats
}.

Definition set__metadata (v : xEntityMetadata) (e : aEntity) : aEntity :=
  {| _metadata := v; _schema := _schema e; _data := _data e; _actions := _actions e;
     _cache := _cache e; _schema_cache := _schema_cache e;
     _performance_stats := _performance_stats e |}.
Definition set__data (v : xData) (e : aEntity) : aEntity :=
  {| _metadata := _metadata e; _schema := _schema e; _data := v; _actions := _actions e;
     _cache := _cache e; _schema_cache := _schema_cache e;
     _performance_stats := _performance_stats e |}.
Definition set__actions (v : gmap string Action) (e : aEntity) : aEntity :=
  {| _metadata := _metadata e; _schema := _schema e; _data := _data e; _actions := v;
     _cache := _cache e; _schema_cache := _schema_cache e;
     _performance_stats := _performance_stats e |}.
Definition set__performance_stats (v : PerformanceStats) (e : aEntity) : aEntity :=
  {| _metadata := _metadata e; _schema := _schema e; _data := _data e;
     _actions := _actions e; _cache := _cache e; _schema_cache := _schema_cache e;
     _performance_stats := v |}.

(** A method of the entity runs on the world and the entity. *)
Definition in_metadata {A} (m : M (World * xEntityMetadata) A) : M (World * aEntity) A :=
  zoom (λ s, (s.1, _metadata s.2)) (λ t s, (t.1, set__metadata t.2 s.2)) m.
Definition in_data {A} (m : M xData A) : M (World * aEntity) A :=
  in_self (zoom _data set__data m).

(** The keyword arguments of a call. *)
Definition Kwargs : Type := list (string * Value).

(** The three kinds of registered object [_execute_action] tells apart
    and what calling each does; the action bodies are outside the
    runtime. [export_action] is what [_to_dict] writes for an action. *)
Variable has_action_instance : Action → bool.
Variable has_execute : Action → bool.
Variable action_instance_execute : Action → Kwargs → M (World * aEntity) (option Value).
Variable action_execute : Action → Kwargs → M (World * aEntity) (option Value).
Variable action_call : Action → Kwargs → M (World * aEntity) (option Value).
Variable export_action : Action → Value.

(** [aEntity._init_data] on [None], a plain mapping or a store. *)
Definition _init_data (data : option (Native + xData)) : xData :=
  match data with
  | None => xData_new empty_mapping
  | Some (inl d) => xData_new d
  | Some (inr x) => x
  end.

(** [aEntity.__init__] *)
Definition aEntity__init__ (schema : option (xSchema Native))
    (data : option (Native + xData)) (entity_type : option string) : M World aEntity :=
  m ← xEntityMetadata__init__ entity_type;
  mret {| _metadata := m; _schema := schema; _data := _init_data data;
          _actions := ∅; _cache := ∅; _schema_cache := None;
          _performance_stats :=
            {| access_count := 0; validation_count := 0;
               cache_hits := 0; cache_misses := 0 |} |}.

(** The table assigned to [self._state_transitions] in [__init__]. *)
Definition _state_transitions : gmap string (list string) :=
  {[ DRAFT := [VALIDATED; ARCHIVED];
     VALIDATED := [COMMITTED; DRAFT; ARCHIVED];
     COMMITTED := [ARCHIVED];
     ARCHIVED := [DRAFT] ]}.

(** [_clear_cache] *)
Definition _clear_cache : M (World * aEntity) unit :=
  in_self (modify (λ e,
    {| _metadata := _metadata e; _schema := _schema e; _data := _data e;
       _actions := _actions e; _cache := ∅; _schema_cache := None;
       _performance_stats := _performance_stats e |})).

(** [_get] *)
Definition _get (path : string) (dflt : option Value) : M (World * aEntity) (option Value) :=
  in_self (modify (λ e, set__performance_stats
    (let p := _performance_stats e in
     {| access_count := access_count p + 1; validation_count := validation_count p;
        cache_hits := cache_hits p; cache_misses := cache_misses p |}) e));;
  in_self (reads (λ e, data_get path dflt (_data e))).

(** [_set] *)
Definition _set (path : string) (value : Value) : M (World * aEntity) unit :=
  in_data (data_set path value);;
  in_metadata update_version;;
  _clear_cache.

(** [_delete] *)
Definition _delete (path : string) : M (World * aEntity) unit :=
  in_data (data_delete path);;
  in_metadata update_version;;
  _clear_cache.

(** [_update]: the items of the mapping in iteration order. *)
Fixpoint _update (updates : list (string * Value)) : M (World * aEntity) unit :=
  match updates with
  | [] => mret tt
  | (path, value) :: rest => _set path value;; _update rest
  end.

(** [_validate] *)
Definition _validate : M (World * aEntity) bool :=
  in_self (modify (λ e, set__performance_stats
    (let p := _performance_stats e in
     {| access_count := access_count p; validation_count := validation_count p + 1;
        cache_hits := cache_hits p; cache_misses := cache_misses p |}) e));;
  in_self (reads (λ e,
    match _schema e with
    | None => true
    | Some s => validate_data s (to_native (_data e))
    end)).

(** The mapping [_to_dict] builds and [_from_dict] reads. *)
Record EntityDict : Type := {
  k__metadata : option MetadataDict;
  k__data : option Native;
  k__schema : option (option string * option string);
  k__actions : option (gmap string Value)
}.

(** [_to_dict]: it changes nothing in the entity. *)
Definition _to_dict (e : aEntity) : EntityDict :=
  {| k__metadata := Some (metadata_to_dict (_metadata e));
     k__data := Some (to_native (_data e));
     k__schema := (λ s, (value s, schema_version s)) <$> _schema e;
     k__actions := if decide (_actions e = ∅) then None
                   else Some (export_action <$> _actions e) |}.

(** [_from_dict] *)
Definition _from_dict (d : EntityDict) : M (World * aEntity) unit :=
  match k__metadata d with
  | Some md => in_metadata (metadata_from_dict md)
  | None => mret tt
  end;;
  match k__data d with
  | Some n => in_self (modify (set__data (xData_new n)))
  | None => mret tt
  end.

(** [_execute_action] *)
Definition _execute_action (action_name : string) (kwargs : Kwargs)
    : M (World * aEntity) (option Value) :=
  acts ← in_self (reads _actions);
  match acts !! action_name with
  | None => raise (xEntityActionError action_name "Action not registered")
  | Some action =>
      if has_action_instance action then action_instance_execute action kwargs
      else if has_execute action then action_execute action kwargs
      else action_call action kwargs
  end.

(** [_register_action], with the name the object is registered under. *)
Definition _register_action (api_name : string) (action : Action) : M (World * aEntity) unit :=
  in_self (modify (λ e, set__actions (<[api_name := action]> (_actions e)) e)).

(** [_can_transition_to] *)
Definition _can_transition_to (target_state : string) (e : aEntity) : bool :=
  let current_state := state (_metadata e) in
  let allowed_states := dict_get [] (_state_transitions !! current_state) in
  bool_decide (target_state ∈ allowed_states).

(** [_transition_to] *)
Definition _transition_to (target_state : string) : M (World * aEntity) unit :=
  e ← in_self (reads (λ e, e));
  (if negb (_can_transition_to target_state e)
   then raise (xEntityStateError (Some (state (_metadata e))) target_state
                 (Some "Transition not allowed"))
   else mret tt);;
  (if decide (target_state = VALIDATED)
   then
     ok ← _validate;
     if negb ok
     then raise (xEntityStateError (Some (state (_metadata e))) target_state
                   (Some "Validation failed"))
     else mret tt
   else mret tt);;
  in_metadata (in_self (modify (set_state target_state)));;
  in_metadata update_version.

(** [aEntityFactory.from_dict]: a fresh entity, then [_from_dict] on it. *)
Definition aEntityFactory_from_dict (d : EntityDict) (schema : option (xSchema Native))
    : M World aEntity :=
  entity ← aEntity__init__ schema None None;
  on_object entity (_from_dict d).

(** ** The facade ([facade.py], [xEntity])

    A facade holds its internal entity and forwards to it; its methods
    are given on the internal entity. The methods that return [self]
    return nothing here.

    The class body declares [state], [schema] and seven more views with
    [@property], each returning the attribute of the internal entity.
    The class is made by the metaclass that [create_xentity_metaclass()]
    returns when the module is loaded, and the [__new__] of a metaclass
    scans the class body: a [@property] of which
    [_convert_property_to_xschema] makes a schema counts as a property
    of the entity, and the accessor made for it takes the place of the
    one of the class body. What [self.state] and [self.schema] give on a
    facade is therefore not settled by the class body: [restore] and
    [copy] are given for any outcome of the two reads, a value (a state
    name or a schema, or Python's [None]) or an exception. The outcome
    may depend on the internal entity, and on nothing else that the
    methods below change. *)
Variable self_state : aEntity → result (option string).
Variable self_schema : aEntity → result (option (xSchema Native)).

(** The reads as the class body declares them: the attribute of the
    internal entity. *)
Definition declared_state (e : aEntity) : result (option string) :=
  Ok (Some (state (_metadata e))).
Definition declared_schema (e : aEntity) : result (option (xSchema Native)) :=
  Ok (_schema e).

(** The read of a view that a direct property has replaced: the getter
    returns the private attribute of the facade (["_state"] for
    [state]) if it has one, and the default of the property if not. The
    class [xEntity] has slots, none of them of such a name, and no
    attribute dictionary: on its instances the read gives the default,
    which is [None] when the schema made for the view has none. An
    instance of a subclass without slots gives what was assigned to
    the view, if anything was. *)
Definition direct_view {A} (own : option A) (e : aEntity) : result (option A) := Ok own.

Definition xEntity_from_dict (d : EntityDict) (schema : option (xSchema Native))
    : M World aEntity :=
  aEntityFactory_from_dict d schema.

Definition xEntity_get (path : string) (dflt : option Value)
    : M (World * aEntity) (option Value) := _get path dflt.
Definition xEntity_set (path : string) (value : Value) : M (World * aEntity) unit :=
  _set path value.
Definition xEntity_delete (path : string) : M (World * aEntity) unit := _delete path.
Definition xEntity_update (updates : list (string * Value)) : M (World * aEntity) unit :=
  _update updates.

Definition xEntity_validate : M (World * aEntity) bool := _validate.

Definition xEntity_validate_or_raise : M (World * aEntity) unit :=
  ok ← xEntity_validate;
  if negb ok then raise (xEntityValidationError "Entity validation failed" None None)
  else mret tt.

Definition xEntity_to_validated : M (World * aEntity) unit := _transition_to VALIDATED.
Definition xEntity_commit : M (World * aEntity) unit := _transition_to COMMITTED.
Definition xEntity_archive : M (World * aEntity) unit := _transition_to ARCHIVED.

(** [restore]: the state it tests and reports is [self.state]. *)
Definition xEntity_restore : M (World * aEntity) unit :=
  e ← in_self (reads (λ e, e));
  match self_state e with
  | Raise err => raise err
  | Ok current =>
      (if decide (current ≠ Some ARCHIVED)
       then raise (xEntityStateError current DRAFT
                     (Some "Can only restore from archived state"))
       else mret tt);;
      _transition_to DRAFT
  end.

Definition xEntity_execute_action (action_name : string) (kwargs : Kwargs)
    : M (World * aEntity) (option Value) :=
  _execute_action action_name kwargs.

Definition xEntity_to_dict (e : aEntity) : EntityDict := _to_dict e.

(** [xEntity.copy]: the schema it passes on is [self.schema]. *)
Definition xEntity_copy (self : aEntity) : M World aEntity :=
  let data := xEntity_to_dict self in
  match self_schema self with
  | Raise err => raise err
  | Ok schema =>
      entity ← xEntity_from_dict data schema;
      let entity :=
        set__metadata (set_tags (tags (_metadata self)) (_metadata entity)) entity in
      let entity :=
        set__metadata (set_metadata (metadata (_metadata self)) (_metadata entity)) entity in
      mret entity
  end.

(** ** Class synthesis and configuration ([metaclass.py], [config.py]) *)

(** The three metaclasses, and [create_xentity_metaclass]: AUTO makes
    the performance metaclass, as PERFORMANCE does. *)
Inductive Metaclass : Type :=
| PerformanceModeMetaclass
| MemoryModeMetaclass
| BalancedModeMetaclass.


(** [str.lower()] on the letters A to Z; the other characters stay. *)
Definition ascii_lower (c : ascii) : ascii :=
  let n := nat_of_ascii c in
  if ((65 <=? n) && (n <=? 90))%nat then ascii_of_nat (n + 32) else c.

Fixpoint lower (s : string) : string :=
  match s with
  | EmptyString => EmptyString
  | String c rest => String (ascii_lower c) (lower rest)
  end.

(** [BalancedModeMetaclass._is_frequently_accessed] *)
Definition frequent_names : list string :=
  ["id"; "name"; "username"; "email"; "status"; "active"].

Definition _is_frequently_accessed (prop : PropertyInfo) : bool :=
  bool_decide (lower (name prop) ∈ frequent_names).

(** What the [__new__] of a metaclass puts in the namespace of the class
    under the name of a property it has scanned. *)
Definition metaclass_attribute (mc : Metaclass) (prop : PropertyInfo) : ClassAttribute :=
  match mc with
  | PerformanceModeMetaclass => DirectProperty prop
  | MemoryModeMetaclass => DelegatedProperty prop
  | BalancedModeMetaclass =>
      if _is_frequently_accessed prop then DirectProperty prop
      else DelegatedProperty prop
  end.

(** The namespace a metaclass hands to [type.__new__]: the properties
    it has scanned take their names in it one after the other, a later
    one replacing an earlier one and whatever the class body had under
    the name. *)
Definition metaclass__new__ (mc : Metaclass) (namespace : gmap string ClassAttribute)
    (properties : list PropertyInfo) : gmap string ClassAttribute :=
  foldl (λ ns prop, <[name prop := metaclass_attribute mc prop]> ns) namespace properties.

(** The class can hold an attribute of its instances under a name only
    where no property has the name; an instance holds it in the slot of
    that name or, without one, in its attribute dictionary. *)
Definition no_property (attr : string) (self : Instance) : Prop :=
  match __class__ self !! attr with
  | Some (DirectProperty _) | Some (DelegatedProperty _) => False
  | _ => True
  end.

Definition holds_attribute (attr : string) (self : Instance) : Prop :=
  match __class__ self !! attr with
  | Some (DirectProperty _) | Some (DelegatedProperty _) => False
  | Some Slot => True
  | Some (ClassValue _) | None => is_Some (__dict__ self)
  end.

(** The properties of a class stand under their own names. *)
Definition named_properties (cls : gmap string ClassAttribute) : Prop :=
  ∀ attr prop, cls !! attr = Some (DirectProperty prop) → name prop = attr.


(** [xEntityConfigManager]: the configuration it holds (the two AUTO
    thresholds of the configuration are kept beside the record above),
    the number of registrations and the property count per class
    name. *)
Record xEntityConfigManager : Type := {
  _config : xEntityConfig;
  auto_property_threshold : Z;
  auto_instance_threshold : Z;
  _instance_count : Z;
  _property_counts : gmap string Z
}.

(** [xEntityConfigManager.__init__] *)
Definition xEntityConfigManager__init__ : xEntityConfigManager :=
  {| _config := default_config;
     auto_property_threshold := 10; auto_instance_threshold := 1000;
     _instance_count := 0; _property_counts := ∅ |}.

(** [set_performance_mode] *)
Definition set_performance_mode (mode : PerformanceMode) (m : xEntityConfigManager)
    : xEntityConfigManager :=
  {| _config := {| performance_mode := mode;
                   enable_validation := enable_validation (_config m) |};
     auto_property_threshold := auto_property_threshold m;
     auto_instance_threshold := auto_instance_threshold m;
     _instance_count := _instance_count m; _property_counts := _property_counts m |}.

(** [_get_effective_mode] *)
Definition _get_effective_mode (property_count : Z) (m : xEntityConfigManager)
    : PerformanceMode :=
  match performance_mode (_config m) with
  | AUTO =>
      if decide (property_count > auto_property_threshold m) then MEMORY
      else if decide (_instance_count m > auto_instance_threshold m) then MEMORY
      else PERFORMANCE
  | base_mode => base_mode
  end.

(** [register_entity_creation], with the name of the class. *)
Definition register_entity_creation (class_name : string) (property_count : Z)
    (m : xEntityConfigManager) : PerformanceMode * xEntityConfigManager :=
  let m' :=
    {| _config := _config m;
       auto_property_threshold := auto_property_threshold m;
       auto_instance_threshold := auto_instance_threshold m;
       _instance_count := _instance_count m + 1;
       _property_counts := <[class_name := property_count]> (_property_counts m) |} in
  (_get_effective_mode property_count m', m').

(** ** The vocabulary of the specification *)

(** The entity [aEntity(schema, data, entity_type)] returns when it is
    constructed in the world [w]. *)
Definition fresh_entity (w : World) (schema : option (xSchema Native))
    (data : option (Native + xData)) (entity_type : option string) : aEntity :=
  {| _metadata :=
       {| id := uuid4 (uuid_draws w);
          type_ := match entity_type with
                   | Some t => if decide (t = "") then "entity" else t
                   | None => "entity"
                   end;
          state := DRAFT; version := 1;
          created_at := clock (clock_reads w);
          updated_at := clock (S (clock_reads w));
          tags := []; metadata := ∅ |};
     _schema := schema; _data := _init_data data;
     _actions := ∅; _cache := ∅; _schema_cache := None;
     _performance_stats :=
       {| access_count := 0; validation_count := 0;
          cache_hits := 0; cache_misses := 0 |} |}.

(** The allowed-transition table as the specification writes it. *)
Definition table_allows (current target : string) : Prop :=
  (current = DRAFT ∧ (target = VALIDATED ∨ target = ARCHIVED)) ∨
  (current = VALIDATED ∧ (target = COMMITTED ∨ target = DRAFT ∨ target = ARCHIVED)) ∨
  (current = COMMITTED ∧ target = ARCHIVED) ∨
  (current = ARCHIVED ∧ target = DRAFT).

(** The schema validation pass over the field data of an entity: the
    verdict of the attached schema on the exported data; there is
    nothing to fail without a schema. *)
Definition schema_pass (e : aEntity) : bool :=
  match _schema e with
  | None => true
  | Some s => validate_data s (to_native (_data e))
  end.

(** The operations of the facade that change an entity. *)
Inductive call : Type :=
| CallSet (path : string) (value : Value)
| CallDelete (path : string)
| CallUpdate (updates : list (string * Value))
| CallTransition (target : string)
| CallRestore.

Definition run_call (c : call) : M (World * aEntity) unit :=
  match c with
  | CallSet path value => xEntity_set path value
  | CallDelete path => xEntity_delete path
  | CallUpdate updates => xEntity_update updates
  | CallTransition target => _transition_to target
  | CallRestore => xEntity_restore
  end.



(** The pairs of a mapping written to a field store one after the other
    with the store's own [set], as long as none is refused: the store
    in which each pair was applied, in order, up to the first failure. *)
Fixpoint applied_in_order (pairs : list (string * Value)) : M xData unit :=
  match pairs with
  | [] => mret tt
  | (path, value) :: rest => data_set path value;; applied_in_order rest
  end.


(** The states an entity goes through: it is constructed, the facade is
    called on it (accepted or not), and the clock may be read by others
    in between. *)
Inductive reachable : World * aEntity → Prop :=
| reach_init w schema data entity_type e w' :
    aEntity__init__ schema data entity_type w = (Ok e, w') → reachable (w', e)
| reach_call s c : reachable s → reachable (run_call c s).2
| reach_clock w e n : reachable (w, e) →
    reachable ({| clock_reads := clock_reads w + n; uuid_draws := uuid_draws w |}, e).

(** Between two states the entity went through [k] version updates: the
    clock was read [k] times, the version grew by [k], the creation time
    is the same and the update time is the last reading made, if any. *)
Definition advanced (k : nat) (s s' : World * aEntity) : Prop :=
  clock_reads s'.1 = (clock_reads s.1 + k)%nat ∧
  uuid_draws s'.1 = uuid_draws s.1 ∧
  version (_metadata s'.2) = version (_metadata s.2) + Z.of_nat k ∧
  created_at (_metadata s'.2) = created_at (_metadata s.2) ∧
  updated_at (_metadata s'.2) =
    match k with
    | O => updated_at (_metadata s.2)
    | S _ => clock (pred (clock_reads s'.1))
    end.



(** Classes registered one after the other: the modes returned, in
    order, and the manager left. *)
Fixpoint register_all (classes : list (string * Z)) (m : xEntityConfigManager)
    : list PerformanceMode * xEntityConfigManager :=
  match classes with
  | [] => ([], m)
  | (class_name, property_count) :: rest =>
      let '(mode, m') := register_entity_creation class_name property_count m in
      let '(modes, m'') := register_all rest m' in
      (mode :: modes, m'')
  end.

(** The life of an entity through the facade: validated, committed,
    archived and restored. *)
Definition full_cycle : M (World * aEntity) unit :=
  xEntity_to_validated;; xEntity_commit;; xEntity_archive;; xEntity_restore.

(** The four states of the table. *)
Definition known_state (s : string) : Prop :=
  s = DRAFT ∨ s = VALIDATED ∨ s = COMMITTED ∨ s = ARCHIVED.

(** The entity after an accepted transition to [target] that read the
    clock of the world [w]: a validation is counted when the target is
    [VALIDATED]. *)
Definition transitioned (target : string) (w : World) (e : aEntity) : aEntity :=
  let e1 :=
    if decide (target = VALIDATED)
    then set__performance_stats
           (let p := _performance_stats e in
            {| access_count := access_count p; validation_count := validation_count p + 1;
               cache_hits := cache_hits p; cache_misses := cache_misses p |}) e
    else e in
  set__metadata
    (set_updated_at (clock (clock_reads w))
       (set_version (version (_metadata e1) + 1) (set_state target (_metadata e1)))) e1.

(** The calls that write field data: [set], [delete], and [update] with
    a pair at least. *)
Definition writes_data (c : call) : bool :=
  match c with
  | CallSet _ _ | CallDelete _ => true
  | CallUpdate updates => bool_decide (updates ≠ [])
  | CallTransition _ | CallRestore => false
  end.

(** The entity after an accepted write that left the store [d] and read
    the clock of the world [w]. *)
Definition written (w : World) (d : xData) (e : aEntity) : aEntity :=
  {| _metadata := set_updated_at (clock (clock_reads w))
                    (set_version (version (_metadata e) + 1) (_metadata e));
     _schema := _schema e; _data := d; _actions := _actions e;
     _cache := ∅; _schema_cache := None;
     _performance_stats := _performance_stats e |}.

(** What no write changes, what an accepted write clears. *)
Definition write_frame (r : result unit) (s s' : World * aEntity) : Prop :=
  state (_metadata s'.2) = state (_metadata s.2) ∧
  id (_metadata s'.2) = id (_metadata s.2) ∧
  _schema s'.2 = _schema s.2 ∧ _actions s'.2 = _actions s.2 ∧
  match r with
  | Ok _ => _cache s'.2 = ∅ ∧ _schema_cache s'.2 = None
  | Raise _ => _cache s'.2 = _cache s.2 ∧ _schema_cache s'.2 = _schema_cache s.2
  end.

(** ** Properties of the state machine *)

Lemma _can_transition_to_table (target : string) (e : aEntity) :
  _can_transition_to target e = true ↔ table_allows (state (_metadata e)) target.
Proof.
  unfold _can_transition_to, table_allows, _state_transitions.
  unfold DRAFT, VALIDATED, COMMITTED, ARCHIVED.
  rewrite bool_decide_eq_true.
  generalize (state (_metadata e)); intros cur. clear.
  rewrite !lookup_insert, ?lookup_singleton, ?lookup_empty.
  repeat case_decide; subst; simpl; rewrite ?elem_of_cons, ?elem_of_nil;
    intuition congruence.
Qed.

Lemma _can_transition_to_false (target : string) (e : aEntity) :
  ¬ table_allows (state (_metadata e)) target → _can_transition_to target e = false.
Proof.
  intros Hno. destruct (_can_transition_to target e) eqn:Hcan; [ | reflexivity ].
  apply _can_transition_to_table in Hcan. contradiction.
Qed.

(** Unfold the plumbing of a method down to the state it computes. *)
Ltac run_method :=
  cbv [mbind mret M_bind M_ret raise reads modify zoom
       in_world in_self in_metadata in_data on_object]; simpl.

(** The entity after [update_version] read the clock at [w]. *)
Lemma update_version_eq (w : World) (m : xEntityMetadata) :
  update_version (w, m) =
    (Ok tt, (tick w, set_updated_at (clock (clock_reads w)) (set_version (version m + 1) m))).
Proof. reflexivity. Qed.

(** C1: a transition to a target outside the allowed set of the current
    state raises [xEntityStateError] with the current and the target
    state in its details and in its message, and leaves the entity
    (hence its state, version and [updated_at]) and the world as they
    were. *)
Theorem transition_outside_table_raises (w : World) (e : aEntity) (target : string) :
  ¬ table_allows (state (_metadata e)) target →
  ∃ err : exn,
    _transition_to target (w, e) = (Raise err, (w, e)) ∧
    err = xEntityStateError (Some (state (_metadata e))) target (Some "Transition not allowed") ∧
    details err = [("current_state", Some (state (_metadata e)));
                   ("target_state", Some target);
                   ("reason", Some "Transition not allowed")] ∧
    message err =
      state_error_message (Some (state (_metadata e))) target (Some "Transition not allowed").
Proof.
  intros Hno. apply _can_transition_to_false in Hno.
  eexists. split; [ | split; [ reflexivity | split; reflexivity ] ].
  unfold _transition_to. run_method. rewrite Hno. reflexivity.
Qed.

(** C2: from a state that allows it, the transition to [VALIDATED]
    succeeds exactly when the schema validation pass succeeds; on success
    the state is [VALIDATED] and the version is one more, on failure
    [xEntityStateError] is raised and state and version are unchanged. *)
Theorem to_validated_iff_schema_pass (w : World) (e : aEntity) :
  table_allows (state (_metadata e)) VALIDATED →
  let '(r, (w', e')) := _transition_to VALIDATED (w, e) in
  (r = Ok tt ↔ schema_pass e = true) ∧
  (schema_pass e = true →
     state (_metadata e') = VALIDATED ∧
     version (_metadata e') = version (_metadata e) + 1) ∧
  (schema_pass e = false →
     r = Raise (xEntityStateError (Some (state (_metadata e))) VALIDATED (Some "Validation failed")) ∧
     state (_metadata e') = state (_metadata e) ∧
     version (_metadata e') = version (_metadata e)).
Proof.
  intros Hyes. apply _can_transition_to_table in Hyes.
  unfold _transition_to, _validate. run_method. rewrite Hyes. simpl.
  unfold schema_pass.
  destruct (_schema e) as [s|]; simpl;
    [ destruct (validate_data s (to_native (_data e))); simpl | ];
    repeat split; intros; congruence.
Qed.

(** C10: an entity without a schema validates, whatever its field data:
    [validate] returns [True] and [validate_or_raise] raises nothing. *)
Theorem validate_without_schema (w : World) (e : aEntity) :
  _schema e = None →
  (xEntity_validate (w, e)).1 = Ok true ∧
  (xEntity_validate_or_raise (w, e)).1 = Ok tt.
Proof.
  intros Hnone.
  unfold xEntity_validate_or_raise, xEntity_validate, _validate. run_method.
  rewrite Hnone. split; reflexivity.
Qed.

(** C9: executing a name that is not in the action table raises the
    action error for an unregistered action ([xEntityActionError] with
    the name and the reason); the entity and the world are untouched,
    and no registered object is called: the outcome is the same for
    every behaviour the registered actions may have. *)
Theorem execute_unregistered_action_raises (w : World) (e : aEntity)
    (action_name : string) (kwargs : Kwargs) :
  _actions e !! action_name = None →
  xEntity_execute_action action_name kwargs (w, e) =
    (Raise (xEntityActionError action_name "Action not registered"), (w, e)).
Proof.
  intros Hnone. unfold xEntity_execute_action, _execute_action. run_method.
  rewrite Hnone. reflexivity.
Qed.

(** *** Version and timestamps *)

Lemma advanced_refl (s : World * aEntity) : advanced 0 s s.
Proof. unfold advanced. rewrite Nat.add_0_r, Z.add_0_r. done. Qed.

Lemma advanced_trans (a b : nat) (s1 s2 s3 : World * aEntity) :
  advanced a s1 s2 → advanced b s2 s3 → advanced (a + b) s1 s3.
Proof.
  unfold advanced. intros (Hc1 & Hu1 & Hv1 & Hk1 & Ht1) (Hc2 & Hu2 & Hv2 & Hk2 & Ht2).
  repeat split; try lia; try congruence.
  destruct b as [|b]; simpl in *.
  - rewrite Nat.add_0_r in *. rewrite Ht2, Ht1, Hc2. reflexivity.
  - rewrite Ht2. destruct a; simpl; reflexivity.
Qed.

(** A store operation followed by [update_version] and [_clear_cache]:
    the shape of [_set] and [_delete]. *)
Lemma write_advanced (op : M xData unit) (s : World * aEntity) :
  let out := (in_data op;; in_metadata update_version;; _clear_cache) s in
  match out.1 with
  | Ok _ => advanced 1 s out.2
  | Raise _ => out.2.1 = s.1 ∧ _metadata out.2.2 = _metadata s.2
  end.
Proof.
  destruct s as [w e]. unfold _clear_cache, update_version. run_method.
  destruct (op (_data e)) as [[[]|x] d]; simpl.
  - unfold advanced; simpl. repeat split; lia.
  - split; reflexivity.
Qed.

Lemma raise_advanced (s s' : World * aEntity) :
  s'.1 = s.1 → _metadata s'.2 = _metadata s.2 → advanced 0 s s'.
Proof.
  intros Hw Hm. unfold advanced. rewrite Hw, Hm, Nat.add_0_r, Z.add_0_r. done.
Qed.

Lemma _set_advanced (path : string) (value : Value) (s : World * aEntity) :
  match (_set path value s).1 with
  | Ok _ => advanced 1 s (_set path value s).2
  | Raise _ => (_set path value s).2.1 = s.1 ∧
               _metadata (_set path value s).2.2 = _metadata s.2
  end.
Proof. apply (write_advanced (data_set path value)). Qed.

Lemma _delete_advanced (path : string) (s : World * aEntity) :
  match (_delete path s).1 with
  | Ok _ => advanced 1 s (_delete path s).2
  | Raise _ => (_delete path s).2.1 = s.1 ∧
               _metadata (_delete path s).2.2 = _metadata s.2
  end.
Proof. apply (write_advanced (data_delete path)). Qed.

Lemma _update_cons (path : string) (value : Value) (rest : list (string * Value))
    (s : World * aEntity) :
  _update ((path, value) :: rest) s =
    match _set path value s with
    | (Ok _, s') => _update rest s'
    | (Raise x, s') => (Raise x, s')
    end.
Proof. reflexivity. Qed.

(** [_update] makes one version update for each pair it applies: all of
    them when it returns, a proper prefix when it raises. *)
Lemma _update_advanced (updates : list (string * Value)) (s : World * aEntity) :
  ∃ k : nat,
    advanced k s (_update updates s).2 ∧
    match (_update updates s).1 with
    | Ok _ => k = length updates
    | Raise _ => (k < length updates)%nat
    end.
Proof.
  revert s. induction updates as [|[path value] rest IH]; intros s.
  - exists 0%nat. split; [ apply advanced_refl | reflexivity ].
  - rewrite _update_cons. pose proof (_set_advanced path value s) as Hset.
    destruct (_set path value s) as [[[]|x] s']; simpl in Hset.
    + destruct (IH s') as (k & Hadv & Hk). exists (1 + k)%nat. split.
      * eapply advanced_trans; eassumption.
      * destruct ((_update rest s').1); simpl; lia.
    + exists 0%nat. simpl. split; [ | lia ].
      destruct Hset. by apply raise_advanced.
Qed.







Lemma aEntity__init___eq (schema : option (xSchema Native))
    (data : option (Native + xData)) (entity_type : option string) (w : World) :
  aEntity__init__ schema data entity_type w =
    (Ok (fresh_entity w schema data entity_type), tick (tick (draw w))).
Proof. reflexivity. Qed.




(** *** Batch update *)

Lemma _update_app (l1 l2 : list (string * Value)) (s : World * aEntity) :
  _update (l1 ++ l2) s =
    match _update l1 s with
    | (Ok _, s') => _update l2 s'
    | (Raise x, s') => (Raise x, s')
    end.
Proof.
  revert s. induction l1 as [|[path value] l1 IH]; intros s; [ reflexivity | ].
  rewrite <- app_comm_cons, !_update_cons.
  destruct (_set path value s) as [[[]|x] s']; [ apply IH | reflexivity ].
Qed.

(** [_set] raises only when the write to the store does, and then leaves
    the entity as it was but for what the failed write did to the
    store. *)
Lemma _set_raise (path : string) (value : Value) (s s' : World * aEntity) (err : exn) :
  _set path value s = (Raise err, s') →
  ∃ d, data_set path value (_data s.2) = (Raise err, d) ∧ s' = (s.1, set__data d s.2).
Proof.
  destruct s as [w e]. unfold _set, _clear_cache, update_version. run_method.
  destruct (data_set path value (_data e)) as [[[]|x] d]; simpl; [ discriminate | ].
  intros [= -> <-]. by exists d.
Qed.

(** What [update] does to the store is what the store's own [set] does
    for the pairs in order, up to the first one it refuses; the outcome
    of [update] is the outcome of these writes. *)
Lemma update_follows_the_store (updates : list (string * Value)) (s : World * aEntity) :
  (xEntity_update updates s).1 = (applied_in_order updates (_data s.2)).1 ∧
  _data (xEntity_update updates s).2.2 = (applied_in_order updates (_data s.2)).2.
Proof.
  unfold xEntity_update. revert s.
  induction updates as [|[path value] rest IH]; intros [w e]; [ by split | ].
  rewrite _update_cons. cbn [applied_in_order]. unfold mbind at 2, M_bind at 2.
  unfold _set, _clear_cache, update_version. run_method.
  destruct (data_set path value (_data e)) as [[[]|x] d]; simpl; [ | by split ].
  match goal with |- context [_update rest ?s1] => specialize (IH s1) end.
  exact IH.
Qed.

(** C8: [update] applies the pairs with [set] in the order of the
    mapping and is not atomic. When the store takes the pairs [applied]
    one after the other and refuses the next pair, [update] raises the
    error of the refused write and stops: the entity it leaves holds the
    store in which every pair of [applied] was written, in order, and
    none of the pairs after the refused one (but for what the refused
    write itself did to the store), and has made one version update and
    one reading of the clock for each pair of [applied]. That state is
    the one [set] on the refused pair leaves after [update] on the pairs
    applied. *)
Theorem update_stops_at_first_failure (applied rest : list (string * Value))
    (path : string) (value : Value) (s : World * aEntity) (d1 d2 : xData) (err : exn) :
  applied_in_order applied (_data s.2) = (Ok tt, d1) →
  data_set path value d1 = (Raise err, d2) →
  ∃ s1 s2 : World * aEntity,
    xEntity_update applied s = (Ok tt, s1) ∧ _data s1.2 = d1 ∧
    xEntity_set path value s1 = (Raise err, s2) ∧
    xEntity_update (applied ++ (path, value) :: rest) s = (Raise err, s2) ∧
    s2 = (s1.1, set__data d2 s1.2) ∧
    _data s2.2 = d2 ∧
    version (_metadata s2.2) = version (_metadata s.2) + Z.of_nat (length applied) ∧
    clock_reads s2.1 = (clock_reads s.1 + length applied)%nat.
Proof.
  intros Hstore Hrefused.
  destruct (update_follows_the_store applied s) as [Hout Hdata].
  rewrite Hstore in Hout, Hdata. simpl in Hout, Hdata.
  destruct (xEntity_update applied s) as [r s1] eqn:Happlied. simpl in Hout, Hdata. subst r.
  destruct (xEntity_set path value s1) as [r2 s2] eqn:Hset.
  assert (Hs2 : r2 = Raise err ∧ s2 = (s1.1, set__data d2 s1.2)).
  { revert Hset. destruct s1 as [w1 e1]. simpl in Hdata.
    unfold xEntity_set, _set, _clear_cache, update_version. run_method.
    rewrite Hdata, Hrefused. simpl. by intros [= <- <-]. }
  destruct Hs2 as [-> Hs2].
  exists s1, s2. split; [ reflexivity | ]. split; [ exact Hdata | ].
  split; [ exact Hset | ].
  destruct (_update_advanced applied s) as (k & Hadv & Hk).
  unfold xEntity_update in Happlied. rewrite Happlied in Hadv, Hk. simpl in Hadv, Hk. subst k.
  destruct Hadv as (Hclock & _ & Hver & _).
  split; [ | split; [ exact Hs2 | ] ].
  - unfold xEntity_update, xEntity_set in *.
    by rewrite _update_app, Happlied, _update_cons, Hset.
  - rewrite Hs2. simpl. split; [ reflexivity | ]. split; [ exact Hver | exact Hclock ].
Qed.

(** *** Snapshots and copies *)

Section RoundTrip.

(** [datetime.fromisoformat] reads back what [isoformat] writes. *)
Hypothesis fromisoformat_isoformat : ∀ t : Z, fromisoformat (isoformat t) = Some t.

Lemma metadata_from_dict_to_dict (w : World) (m0 m : xEntityMetadata) :
  metadata_from_dict (metadata_to_dict m) (w, m0) = (Ok tt, (tick (tick (draw w)), m)).
Proof using Type fromisoformat_isoformat.
  unfold metadata_from_dict, metadata_to_dict, datetime_fromisoformat. run_method.
  rewrite !fromisoformat_isoformat. simpl. destruct m; reflexivity.
Qed.

(** Loading the export of [e] into a new entity: the new entity has the
    whole metadata of [e] and a store made from the export of its data. *)
Lemma from_dict_to_dict (e : aEntity) (schema : option (xSchema Native)) (w : World) :
  ∃ e' w',
    xEntity_from_dict (xEntity_to_dict e) schema w = (Ok e', w') ∧
    _metadata e' = _metadata e ∧
    _data e' = xData_new (to_native (_data e)) ∧
    _schema e' = schema.
Proof using Type fromisoformat_isoformat.
  unfold xEntity_from_dict, aEntityFactory_from_dict, xEntity_to_dict, _to_dict, _from_dict.
  unfold aEntity__init__, xEntityMetadata__init__.
  cbv [mbind mret M_bind M_ret on_object in_metadata zoom uuid4_str datetime_now].
  cbn [fst snd k__metadata k__data _metadata set__metadata].
  rewrite metadata_from_dict_to_dict. simpl.
  eexists _, _. repeat split.
Qed.

(** C7: an entity made from the exported snapshot of [e] has the field
    data of [e] and the state, version, tags and metadata mapping of
    [e]. *)
Theorem snapshot_round_trip (Hstore : FieldStoreRoundTrip FieldStore0)
    (e : aEntity) (schema : option (xSchema Native)) (w : World) :
  ∃ e' w',
    xEntity_from_dict (xEntity_to_dict e) schema w = (Ok e', w') ∧
    to_native (_data e') = to_native (_data e) ∧
    state (_metadata e') = state (_metadata e) ∧
    version (_metadata e') = version (_metadata e) ∧
    tags (_metadata e') = tags (_metadata e) ∧
    metadata (_metadata e') = metadata (_metadata e).
Proof using Type fromisoformat_isoformat.
  destruct (from_dict_to_dict e schema w) as (e' & w' & Hrun & Hmeta & Hdata & _).
  exists e', w'. split; [ exact Hrun | ]. rewrite Hmeta, Hdata.
  split; [ apply Hstore | ]. repeat split.
Qed.

(** The copy made by [xEntity.copy] carries the whole metadata of its
    source: the identifier, the version and the state with it. Its
    schema is what [self.schema] gave, and [copy] raises what that read
    raises. *)
Lemma copy_has_source_metadata (e : aEntity) (w : World) :
  match self_schema e with
  | Ok schema =>
      ∃ e' w',
        xEntity_copy e w = (Ok e', w') ∧
        _metadata e' = _metadata e ∧
        _data e' = xData_new (to_native (_data e)) ∧
        _schema e' = schema
  | Raise err => xEntity_copy e w = (Raise err, w)
  end.
Proof using Type fromisoformat_isoformat.
  unfold xEntity_copy. destruct (self_schema e) as [schema|err]; [ | reflexivity ].
  destruct (from_dict_to_dict e schema w) as (e' & w' & Hrun & Hmeta & Hdata & Hschema).
  unfold mbind, M_bind. rewrite Hrun.
  eexists _, _. split; [ reflexivity | ]. simpl. rewrite Hmeta, Hdata, Hschema.
  split; [ destruct (_metadata e) | split ]; reflexivity.
Qed.

End RoundTrip.

(** *** Accessors *)

Lemma getattr_fuel_no_property (fuel : nat) (attr : string) (dflt : option Value)
    (self : Instance) :
  no_property attr self →
  getattr_fuel fuel attr dflt self = Ok (stored_attribute attr dflt self).
Proof.
  unfold no_property. intros Hno.
  destruct fuel; simpl; by destruct (__class__ self !! attr) as [[]|].
Qed.

Lemma setattr_fuel_no_property (fuel : nat) (config : xEntityConfig) (attr : string)
    (value : Value) (self : Instance) :
  no_property attr self →
  setattr_fuel fuel config attr value self = store_attribute attr value self.
Proof.
  unfold no_property. intros Hno.
  destruct fuel; simpl; by destruct (__class__ self !! attr) as [[]|].
Qed.

Lemma holds_no_property (attr : string) (self : Instance) :
  holds_attribute attr self → no_property attr self.
Proof.
  unfold holds_attribute, no_property. by destruct (__class__ self !! attr) as [[]|].
Qed.

Lemma holds_or_not (attr : string) (self : Instance) :
  holds_attribute attr self ∨ ¬ holds_attribute attr self.
Proof.
  unfold holds_attribute.
  destruct (__class__ self !! attr) as [[p|p| |v]|]; auto;
    destruct (__dict__ self); eauto; right; by intros [? ?].
Qed.

(** Writing an attribute the instance can hold: the write returns, the
    attribute reads back, every other attribute reads as before, and
    the class and the field store are the same. *)
Lemma store_attribute_held (attr : string) (value : Value) (self : Instance) :
  holds_attribute attr self →
  ∃ self',
    store_attribute attr value self = (Ok tt, self') ∧
    __class__ self' = __class__ self ∧ data self' = data self ∧
    (∀ dflt, stored_attribute attr dflt self' = Some value) ∧
    (∀ other dflt, other ≠ attr →
       stored_attribute other dflt self' = stored_attribute other dflt self).
Proof.
  unfold holds_attribute, store_attribute, stored_attribute.
  destruct (__class__ self !! attr) as [[p|p| |v]|] eqn:Hcls; try done.
  - intros _. eexists. split; [ reflexivity | ]. simpl. rewrite Hcls.
    split_and!; try done.
    + intros dflt. by rewrite lookup_insert_eq.
    + intros other dflt Hne. by rewrite lookup_insert_ne.
  - intros [d Hd]. rewrite Hd. eexists. split; [ reflexivity | ]. simpl. rewrite Hcls.
    split_and!; try done.
    + intros dflt. simpl. by rewrite lookup_insert_eq.
    + intros other dflt Hne. simpl. by rewrite lookup_insert_ne.
  - intros [d Hd]. rewrite Hd. eexists. split; [ reflexivity | ]. simpl. rewrite Hcls.
    split_and!; try done.
    + intros dflt. simpl. by rewrite lookup_insert_eq.
    + intros other dflt Hne. simpl. by rewrite lookup_insert_ne.
Qed.

(** Writing an attribute the instance cannot hold, where the class has
    no property of the name: [AttributeError], and nothing is
    written. *)
Lemma store_attribute_refused (attr : string) (value : Value) (self : Instance) :
  no_property attr self → ¬ holds_attribute attr self →
  store_attribute attr value self = (Raise (ForeignError "AttributeError"), self).
Proof.
  unfold no_property, holds_attribute, store_attribute.
  destruct (__class__ self !! attr) as [[p|p| |v]|]; try done;
    destruct (__dict__ self); try done; intros _ Hno; destruct Hno; eauto.
Qed.

(** The setter of a direct property stores whatever it is given, where
    the instance can hold the private attribute. *)
Lemma direct_setter_stores (config : xEntityConfig) (prop : PropertyInfo) (value : Value)
    (self : Instance) :
  holds_attribute (private_name prop) self →
  ∃ self',
    (_create_direct_property config prop).2 value self = (Ok tt, self') ∧
    (_create_direct_property config prop).1 self' = Ok (Some value) ∧
    data self' = data self.
Proof.
  intros Hholds. pose proof (holds_no_property _ _ Hholds) as Hno.
  destruct (store_attribute_held _ value _ Hholds) as (self' & Hrun & Hcls & Hdata & Hget & _).
  exists self'. simpl. unfold direct_setter, direct_getter, setattr, getattr.
  rewrite setattr_fuel_no_property by done.
  split; [ done | ]. split; [ | done ].
  rewrite getattr_fuel_no_property; [ by rewrite Hget | ].
  unfold no_property in *. by rewrite Hcls.
Qed.

(** On an instance without an attribute dictionary, of a class that has
    nothing under the private name of a direct property, the getter of
    the property gives the default of the property and its setter
    raises [AttributeError] and writes nothing: the views of the facade
    that the performance metaclass has replaced, on an instance of
    [xEntity]. *)
Lemma direct_property_without_storage (config : xEntityConfig) (prop : PropertyInfo)
    (value : Value) (self : Instance) :
  __class__ self !! private_name prop = None → __dict__ self = None →
  (_create_direct_property config prop).1 self = Ok (default prop) ∧
  (_create_direct_property config prop).2 value self
    = (Raise (ForeignError "AttributeError"), self).
Proof.
  intros Hcls Hdict.
  assert (Hno : no_property (private_name prop) self)
    by (unfold no_property; by rewrite Hcls).
  simpl. unfold direct_getter, direct_setter, getattr, setattr.
  rewrite getattr_fuel_no_property, setattr_fuel_no_property by done.
  unfold stored_attribute, store_attribute. by rewrite Hcls, Hdict.
Qed.

(** The setter of a delegated property refuses a value its schema
    rejects when validation is enabled. *)
Lemma delegated_setter_rejects (config : xEntityConfig) (prop : PropertyInfo)
    (s : FieldSchema) (value : Value) (self : Instance) :
  schema prop = Some s → enable_validation config = true → validate s value = false →
  (_create_delegated_property config prop).2 value self =
    (Raise (ValueError
              ("Validation failed for " +:+ name prop +:+ ": " +:+ format_value value)),
     self).
Proof.
  intros Hs Hon Hno. simpl. unfold delegated_setter. rewrite Hs, Hon, Hno. reflexivity.
Qed.

(** *** The gates of the facade *)

Lemma table_allows_known (current target : string) :
  table_allows current target →
  known_state current ∧ known_state target ∧ target ≠ current.
Proof.
  unfold table_allows, known_state, DRAFT, VALIDATED, COMMITTED, ARCHIVED. clear.
  intros [[-> [->| ->]]|[[-> [->|[->| ->]]]|[[-> ->]|[-> ->]]]];
    split_and!; auto; discriminate.
Qed.

Lemma _transition_to_ok (target : string) (w : World) (e : aEntity) :
  table_allows (state (_metadata e)) target →
  (target = VALIDATED → schema_pass e = true) →
  _transition_to target (w, e) = (Ok tt, (tick w, transitioned target w e)).
Proof.
  intros Hyes Hpass. apply _can_transition_to_table in Hyes.
  unfold _transition_to, _validate, update_version, transitioned. run_method.
  rewrite Hyes. simpl. destruct (decide (target = VALIDATED)) as [Heq|Hne]; simpl.
  - specialize (Hpass Heq). unfold schema_pass in Hpass. rewrite Hpass. reflexivity.
  - reflexivity.
Qed.

Lemma _transition_to_refused (target : string) (w : World) (e : aEntity) :
  ¬ table_allows (state (_metadata e)) target →
  _transition_to target (w, e) =
    (Raise (xEntityStateError (Some (state (_metadata e))) target (Some "Transition not allowed")),
     (w, e)).
Proof.
  intros Hno. apply _can_transition_to_false in Hno.
  unfold _transition_to. run_method. rewrite Hno. reflexivity.
Qed.

Lemma transitioned_fields (target : string) (w : World) (e : aEntity) :
  state (_metadata (transitioned target w e)) = target ∧
  version (_metadata (transitioned target w e)) = version (_metadata e) + 1 ∧
  id (_metadata (transitioned target w e)) = id (_metadata e) ∧
  _data (transitioned target w e) = _data e ∧
  _schema (transitioned target w e) = _schema e.
Proof. unfold transitioned. by destruct (decide (target = VALIDATED)). Qed.

Lemma table_allows_draft (current : string) :
  table_allows current DRAFT ↔ current = VALIDATED ∨ current = ARCHIVED.
Proof.
  unfold table_allows, DRAFT, VALIDATED, COMMITTED, ARCHIVED. clear.
  split.
  - intros [[_ [?|?]]|[[-> _]|[[_ ?]|[-> _]]]]; auto; done.
  - intros [->| ->]; [ right; left | right; right; right ]; split; auto.
Qed.

(** The outcomes of [restore]: it raises what the read of [self.state]
    raises, it refuses a state that is not [ARCHIVED], and it is the
    transition to [DRAFT] otherwise. *)
Lemma restore_cases (w : World) (e : aEntity) :
  match self_state e with
  | Raise err => xEntity_restore (w, e) = (Raise err, (w, e))
  | Ok current =>
      if decide (current = Some ARCHIVED)
      then xEntity_restore (w, e) = _transition_to DRAFT (w, e)
      else xEntity_restore (w, e) =
             (Raise (xEntityStateError current DRAFT
                       (Some "Can only restore from archived state")), (w, e))
  end.
Proof.
  unfold xEntity_restore. cbv [mbind M_bind in_self zoom reads raise mret M_ret]. simpl.
  destruct (self_state e) as [current|err]; [ | reflexivity ].
  destruct (decide (current = Some ARCHIVED)) as [->|Hne].
  - rewrite decide_False by (intros Hne; by apply Hne). simpl.
    by destruct (_transition_to DRAFT (w, e)) as [[[]|x] s'].
  - by rewrite decide_True.
Qed.

(** [restore] raises and changes nothing, or is the transition to
    [DRAFT]. *)
Lemma restore_raises_or_transitions (w : World) (e : aEntity) :
  (∃ err, xEntity_restore (w, e) = (Raise err, (w, e))) ∨
  xEntity_restore (w, e) = _transition_to DRAFT (w, e).
Proof.
  pose proof (restore_cases w e) as Hcases.
  destruct (self_state e) as [current|err]; [ | left; eauto ].
  destruct (decide (current = Some ARCHIVED)); [ by right | left; eauto ].
Qed.

(** The transition to [DRAFT]: through when the table allows it, and
    without any change when it does not. *)
Lemma to_draft_cases (w : World) (e : aEntity) :
  (table_allows (state (_metadata e)) DRAFT ∧
   _transition_to DRAFT (w, e) = (Ok tt, (tick w, transitioned DRAFT w e))) ∨
  (¬ table_allows (state (_metadata e)) DRAFT ∧
   _transition_to DRAFT (w, e) =
     (Raise (xEntityStateError (Some (state (_metadata e))) DRAFT
               (Some "Transition not allowed")), (w, e))).
Proof.
  destruct (_can_transition_to DRAFT e) eqn:Hcan.
  - apply _can_transition_to_table in Hcan. left. split; [ done | ].
    apply _transition_to_ok; [ done | discriminate ].
  - assert (Hno : ¬ table_allows (state (_metadata e)) DRAFT).
    { intros Hyes. apply _can_transition_to_table in Hyes. congruence. }
    right. split; [ done | by apply _transition_to_refused ].
Qed.

(** X8: [restore] tests what [self.state] gives on the facade, not the
    state of the internal entity. It goes through exactly when that
    read gives [ARCHIVED] and the table allows [DRAFT] from the state
    of the internal entity, which is then in [DRAFT] with its version
    one more; it changes nothing when it raises. A read that gives
    anything else, Python's [None] included, makes it raise
    [xEntityStateError] with what was read as the current state, and a
    read that raises makes it raise the same. Where the read is the one
    of the class body, [restore] goes through exactly from [ARCHIVED];
    where a direct property without a value has taken its place, as in
    the class [xEntity] that the performance metaclass makes, it never
    goes through, whatever the state of the entity. *)
Theorem restore_tests_the_facade_state (w : World) (e : aEntity) :
  let '(r, (w', e')) := xEntity_restore (w, e) in
  (r = Ok tt ↔
     self_state e = Ok (Some ARCHIVED) ∧ table_allows (state (_metadata e)) DRAFT) ∧
  (r = Ok tt →
     state (_metadata e') = DRAFT ∧ version (_metadata e') = version (_metadata e) + 1 ∧
     w' = tick w) ∧
  (r ≠ Ok tt → (w', e') = (w, e)) ∧
  (∀ current : option string, self_state e = Ok current → current ≠ Some ARCHIVED →
     r = Raise (xEntityStateError current DRAFT
                  (Some "Can only restore from archived state"))) ∧
  (∀ err : exn, self_state e = Raise err → r = Raise err) ∧
  (self_state e = declared_state e → (r = Ok tt ↔ state (_metadata e) = ARCHIVED)) ∧
  (self_state e = direct_view None e →
     r = Raise (xEntityStateError None DRAFT
                  (Some "Can only restore from archived state"))).
Proof.
  pose proof (restore_cases w e) as Hcases. unfold declared_state, direct_view.
  clear self_schema.
  destruct (self_state e) as [current|err];
    [ destruct (decide (current = Some ARCHIVED)) as [->|Hne];
      [ rewrite Hcases; destruct (to_draft_cases w e) as [[Hyes ->]|[Hno ->]];
        [ destruct (transitioned_fields DRAFT w e) as (Hs & Hv & _)
        | assert (Hnot : state (_metadata e) ≠ ARCHIVED)
            by (intros Heq; apply Hno; rewrite Heq; do 3 right; done) ]
      | rewrite Hcases ]
    | rewrite Hcases ].
  all: split_and!; try done; intros; simplify_eq; try done.
  all: try (split; [ done | ]; intros; try tauto; try congruence).
  all: destruct_and?; simplify_eq.
Qed.

Lemma table_allows_commit (current : string) :
  table_allows current COMMITTED ↔ current = VALIDATED.
Proof.
  unfold table_allows, DRAFT, VALIDATED, COMMITTED, ARCHIVED. clear.
  split; [ | intros ->; right; left; split; [ done | by left ] ].
  intros [[_ [?|?]]|[[-> _]|[[_ ?]|[_ ?]]]]; done.
Qed.

Lemma table_allows_archive (current : string) :
  table_allows current ARCHIVED ↔
  current = DRAFT ∨ current = VALIDATED ∨ current = COMMITTED.
Proof.
  unfold table_allows, DRAFT, VALIDATED, COMMITTED, ARCHIVED. clear.
  split.
  - intros [[-> _]|[[-> _]|[[-> _]|[_ ?]]]]; auto; done.
  - intros [->|[->| ->]]; [ left | right; left | right; right; left ];
      split; auto.
Qed.

(** A transition to a target other than [VALIDATED] goes through
    exactly when the table allows it, and changes nothing when it does
    not. *)
Lemma plain_transition_gate (target : string) (w : World) (e : aEntity) :
  target ≠ VALIDATED →
  ((_transition_to target (w, e)).1 = Ok tt ↔ table_allows (state (_metadata e)) target) ∧
  (table_allows (state (_metadata e)) target →
     (_transition_to target (w, e)).2 = (tick w, transitioned target w e)) ∧
  (¬ table_allows (state (_metadata e)) target →
     (_transition_to target (w, e)).2 = (w, e)).
Proof.
  intros Hne.
  destruct (_can_transition_to target e) eqn:Hcan.
  - apply _can_transition_to_table in Hcan.
    rewrite _transition_to_ok by done. split_and!; done.
  - assert (Hno : ¬ table_allows (state (_metadata e)) target).
    { intros Hyes. apply _can_transition_to_table in Hyes. congruence. }
    rewrite _transition_to_refused by done. split_and!; [ | done | done ].
    split; [ discriminate | contradiction ].
Qed.

(** X9: [commit] goes through exactly from [VALIDATED] and [archive]
    exactly from [DRAFT], [VALIDATED] and [COMMITTED]; a call that goes
    through sets the state and raises the version by one, a refused
    call leaves the entity and the clock as they were. *)
Theorem commit_and_archive_gates (w : World) (e : aEntity) :
  ((xEntity_commit (w, e)).1 = Ok tt ↔ state (_metadata e) = VALIDATED) ∧
  ((xEntity_archive (w, e)).1 = Ok tt ↔
     state (_metadata e) = DRAFT ∨ state (_metadata e) = VALIDATED ∨
     state (_metadata e) = COMMITTED) ∧
  match xEntity_commit (w, e) with
  | (Ok _, (w', e')) =>
      state (_metadata e') = COMMITTED ∧
      version (_metadata e') = version (_metadata e) + 1 ∧ w' = tick w
  | (Raise _, s') => s' = (w, e)
  end ∧
  match xEntity_archive (w, e) with
  | (Ok _, (w', e')) =>
      state (_metadata e') = ARCHIVED ∧
      version (_metadata e') = version (_metadata e) + 1 ∧ w' = tick w
  | (Raise _, s') => s' = (w, e)
  end.
Proof.
  assert (Hc : COMMITTED ≠ VALIDATED) by discriminate.
  assert (Ha : ARCHIVED ≠ VALIDATED) by discriminate.
  destruct (plain_transition_gate COMMITTED w e Hc) as (Hc1 & Hc2 & Hc3).
  destruct (plain_transition_gate ARCHIVED w e Ha) as (Ha1 & Ha2 & Ha3).
  unfold xEntity_commit, xEntity_archive.
  split; [ by rewrite Hc1, table_allows_commit | ].
  split; [ by rewrite Ha1, table_allows_archive | ].
  split.
  - destruct (_transition_to COMMITTED (w, e)) as [[[]|x] [w' e']] eqn:Hrun; simpl in *.
    + assert (Hyes : table_allows (state (_metadata e)) COMMITTED) by by apply Hc1.
      specialize (Hc2 Hyes). injection Hc2 as -> ->. done.
    + apply Hc3. intros Hyes. apply Hc1 in Hyes. discriminate.
  - destruct (_transition_to ARCHIVED (w, e)) as [[[]|x] [w' e']] eqn:Hrun; simpl in *.
    + assert (Hyes : table_allows (state (_metadata e)) ARCHIVED) by by apply Ha1.
      specialize (Ha2 Hyes). injection Ha2 as -> ->. done.
    + apply Ha3. intros Hyes. apply Ha1 in Hyes. discriminate.
Qed.

(** X10: the table has no entry for a state outside the four and no
    state leads to itself: a transition from an unknown state, to an
    unknown state or to the current state is refused, with the entity
    unchanged. *)
Theorem transition_refused_from_unknown_or_same_state (w : World) (e : aEntity)
    (target : string) :
  ¬ known_state (state (_metadata e)) ∨ ¬ known_state target ∨
  target = state (_metadata e) →
  _transition_to target (w, e) =
    (Raise (xEntityStateError (Some (state (_metadata e))) target (Some "Transition not allowed")),
     (w, e)).
Proof.
  intros Hstuck. apply _transition_to_refused. intros Hyes.
  apply table_allows_known in Hyes as (Hcur & Htgt & Hne).
  destruct Hstuck as [?|[?|?]]; contradiction.
Qed.

(** Every outcome of a transition: it goes through, the table allowing
    it and the schema passing when the target is [VALIDATED], or it
    raises and leaves the world and all of the entity but its
    counters. *)
Lemma _transition_to_cases (target : string) (w : World) (e : aEntity) :
  (table_allows (state (_metadata e)) target ∧
   (target = VALIDATED → schema_pass e = true) ∧
   _transition_to target (w, e) = (Ok tt, (tick w, transitioned target w e))) ∨
  (∃ err p, _transition_to target (w, e) = (Raise err, (w, set__performance_stats p e))).
Proof.
  destruct (_can_transition_to target e) eqn:Hcan.
  - pose proof Hcan as Hyes. apply _can_transition_to_table in Hyes.
    destruct (decide (target = VALIDATED)) as [->|Hne].
    + destruct (schema_pass e) eqn:Hpass.
      * left. split_and!; [ done | done | by apply _transition_to_ok ].
      * right. unfold _transition_to, _validate. run_method. rewrite Hcan. simpl.
        unfold schema_pass in Hpass. rewrite Hpass. simpl. eauto.
    + left. split_and!; [ done | done | by apply _transition_to_ok ].
  - right. exists (xEntityStateError (Some (state (_metadata e))) target
                     (Some "Transition not allowed")), (_performance_stats e).
    rewrite _transition_to_refused.
    + by destruct e.
    + intros Hyes. apply _can_transition_to_table in Hyes. congruence.
Qed.

(** X12: a transition that goes through was allowed by the table (and
    passed the schema when the target is [VALIDATED]); it reads the
    clock once and changes the state, the version and [updated_at], and
    nothing else of the metadata, the field data, the schema, the
    actions or the caches. *)
Theorem accepted_transition_changes_only_lifecycle (target : string)
    (w w' : World) (e e' : aEntity) :
  _transition_to target (w, e) = (Ok tt, (w', e')) →
  table_allows (state (_metadata e)) target ∧
  (target = VALIDATED → schema_pass e = true) ∧
  w' = tick w ∧
  _metadata e' =
    set_updated_at (clock (clock_reads w))
      (set_version (version (_metadata e) + 1) (set_state target (_metadata e))) ∧
  _data e' = _data e ∧ _schema e' = _schema e ∧ _actions e' = _actions e ∧
  _cache e' = _cache e ∧ _schema_cache e' = _schema_cache e.
Proof.
  intros Hrun. destruct (_transition_to_cases target w e) as [(Hyes & Hpass & Heq)|(x & p & Heq)];
    rewrite Heq in Hrun; [ | discriminate ].
  injection Hrun as <- <-. unfold transitioned.
  split_and!; try done; by destruct (decide (target = VALIDATED)).
Qed.

(** X13: [to_validated], [commit], [archive] and [restore] in a row on
    a [DRAFT] entity. When the data does not pass the schema the row
    stops at its first call with the state and the version as they
    were. When it passes, the first three calls go through and leave
    the entity [ARCHIVED], three versions and three clock readings
    later; [restore] then brings it back to [DRAFT], with the same
    identifier and data, only if [self.state] gives [ARCHIVED] on the
    facade: with any other read the row ends in the error of [restore]
    and the entity stays [ARCHIVED], as it does in the class [xEntity]
    that the performance metaclass makes. *)
Theorem full_cycle_through_the_facade (w : World) (e : aEntity) :
  state (_metadata e) = DRAFT →
  let e3 :=
    transitioned ARCHIVED (tick (tick w))
      (transitioned COMMITTED (tick w) (transitioned VALIDATED w e)) in
  match full_cycle (w, e) with
  | (Ok _, (w', e')) =>
      schema_pass e = true ∧ self_state e3 = Ok (Some ARCHIVED) ∧
      state (_metadata e') = DRAFT ∧
      version (_metadata e') = version (_metadata e) + 4 ∧
      id (_metadata e') = id (_metadata e) ∧ _data e' = _data e ∧
      clock_reads w' = (clock_reads w + 4)%nat
  | (Raise err, (w', e')) =>
      (schema_pass e = false ∧
       err = xEntityStateError (Some DRAFT) VALIDATED (Some "Validation failed") ∧
       state (_metadata e') = DRAFT ∧
       version (_metadata e') = version (_metadata e) ∧ w' = w) ∨
      (schema_pass e = true ∧ self_state e3 ≠ Ok (Some ARCHIVED) ∧
       (w', e') = (tick (tick (tick w)), e3) ∧
       state (_metadata e') = ARCHIVED ∧
       version (_metadata e') = version (_metadata e) + 3 ∧
       id (_metadata e') = id (_metadata e) ∧ _data e' = _data e ∧
       (self_state e3 = direct_view None e3 →
          err = xEntityStateError None DRAFT
                  (Some "Can only restore from archived state")))
  end.
Proof.
  intros Hdraft. unfold full_cycle, xEntity_to_validated, xEntity_commit, xEntity_archive.
  clear self_schema.
  unfold mbind at 1, M_bind at 1.
  destruct (schema_pass e) eqn:Hpass.
  - rewrite (_transition_to_ok VALIDATED w e);
      [ | rewrite Hdraft; left; split; [ done | by left ] | done ].
    destruct (transitioned_fields VALIDATED w e) as (Hs1 & Hv1 & Hi1 & Hd1 & _).
    set (e1 := transitioned VALIDATED w e) in *.
    unfold mbind at 1, M_bind at 1.
    rewrite (_transition_to_ok COMMITTED (tick w) e1);
      [ | rewrite Hs1; right; left; split; [ done | by left ] | discriminate ].
    destruct (transitioned_fields COMMITTED (tick w) e1) as (Hs2 & Hv2 & Hi2 & Hd2 & _).
    set (e2 := transitioned COMMITTED (tick w) e1) in *.
    unfold mbind at 1, M_bind at 1.
    rewrite (_transition_to_ok ARCHIVED (tick (tick w)) e2);
      [ | rewrite Hs2; right; right; left; by split | discriminate ].
    destruct (transitioned_fields ARCHIVED (tick (tick w)) e2) as (Hs3 & Hv3 & Hi3 & Hd3 & _).
    set (e3 := transitioned ARCHIVED (tick (tick w)) e2) in *.
    pose proof (restore_cases (tick (tick (tick w))) e3) as Hr.
    unfold direct_view.
    destruct (self_state e3) as [current|err].
    + destruct (decide (current = Some ARCHIVED)) as [->|Hne].
      * rewrite Hr.
        rewrite (_transition_to_ok DRAFT (tick (tick (tick w))) e3);
          [ | rewrite Hs3; do 3 right; done | discriminate ].
        destruct (transitioned_fields DRAFT (tick (tick (tick w))) e3)
          as (Hs4 & Hv4 & Hi4 & Hd4 & _).
        split_and!; try done; simpl; try congruence; lia.
      * rewrite Hr. right.
        split_and!; try done; try congruence; try lia; intros; simplify_eq; done.
    + rewrite Hr. right. split_and!; try done; try congruence; try lia.
  - pose proof Hpass as Hfail. unfold schema_pass in Hfail.
    assert (Hcan : _can_transition_to VALIDATED e = true).
    { apply _can_transition_to_table. rewrite Hdraft. left. split; [ done | by left ]. }
    unfold _transition_to, _validate. run_method. rewrite Hcan. simpl.
    rewrite Hfail. simpl. rewrite Hdraft. left. done.
Qed.

(** *** What a call leaves alone *)

(** [_set] and [_delete]: the write to the store, then the version
    update and the clearing of the caches when the write returned. *)
Lemma write_effect (op : M xData unit) (w : World) (e : aEntity) :
  (in_data op;; in_metadata update_version;; _clear_cache) (w, e) =
    match op (_data e) with
    | (Ok _, d) => (Ok tt, (tick w, written w d e))
    | (Raise x, d) => (Raise x, (w, set__data d e))
    end.
Proof.
  unfold _clear_cache, update_version, written. run_method.
  by destruct (op (_data e)) as [[[]|x] d].
Qed.

Lemma write_keeps (op : M xData unit) (s : World * aEntity) :
  let out := (in_data op;; in_metadata update_version;; _clear_cache) s in
  write_frame out.1 s out.2.
Proof.
  destruct s as [w e]. simpl. rewrite write_effect. unfold write_frame.
  by destruct (op (_data e)) as [[[]|x] d].
Qed.

Lemma _update_keeps (updates : list (string * Value)) (s : World * aEntity) :
  state (_metadata (_update updates s).2.2) = state (_metadata s.2) ∧
  id (_metadata (_update updates s).2.2) = id (_metadata s.2) ∧
  _schema (_update updates s).2.2 = _schema s.2 ∧
  _actions (_update updates s).2.2 = _actions s.2 ∧
  ((_update updates s).1 = Ok tt → updates ≠ [] →
     _cache (_update updates s).2.2 = ∅ ∧ _schema_cache (_update updates s).2.2 = None).
Proof.
  revert s. induction updates as [|[path value] rest IH]; intros s; [ done | ].
  rewrite _update_cons.
  pose proof (write_keeps (data_set path value) s) as Hw. simpl in Hw.
  change ((in_data (data_set path value);; in_metadata update_version;; _clear_cache) s)
    with (_set path value s) in Hw.
  destruct (_set path value s) as [[[]|x] s1]; simpl in Hw;
    destruct Hw as (Hs & Hi & Hsc & Ha & Hc1 & Hc2).
  - destruct (IH s1) as (Hs' & Hi' & Hsc' & Ha' & Hc').
    split_and!; try congruence. intros Hok _.
    destruct rest as [|pair rest]; [ done | ]. by apply Hc'.
  - simpl. split_and!; try done.
Qed.

(** X14: an accepted [set], [delete] or non-empty [update] leaves the
    entity with both its caches empty; a transition, [restore] and an
    empty [update] leave the caches as they are, whether they go
    through or not. *)
Theorem writes_clear_caches_transitions_keep_them (c : call) (s : World * aEntity) :
  let '(r, s') := run_call c s in
  (writes_data c = true → r = Ok tt →
     _cache s'.2 = ∅ ∧ _schema_cache s'.2 = None) ∧
  (writes_data c = false →
     _cache s'.2 = _cache s.2 ∧ _schema_cache s'.2 = _schema_cache s.2).
Proof.
  destruct c as [path value|path|updates|target|]; simpl.
  - pose proof (write_keeps (data_set path value) s) as Hw. simpl in Hw.
    unfold xEntity_set, _set.
    destruct ((in_data (data_set path value);; in_metadata update_version;; _clear_cache) s)
      as [[[]|x] s']; simpl in *; split; try done; by destruct Hw as (_ & _ & _ & _ & ?).
  - pose proof (write_keeps (data_delete path) s) as Hw. simpl in Hw.
    unfold xEntity_delete, _delete.
    destruct ((in_data (data_delete path);; in_metadata update_version;; _clear_cache) s)
      as [[[]|x] s']; simpl in *; split; try done; by destruct Hw as (_ & _ & _ & _ & ?).
  - unfold xEntity_update. destruct (_update_keeps updates s) as (_ & _ & _ & _ & Hc).
    destruct (_update updates s) as [r s'] eqn:Hrun; simpl in *. split.
    + intros Hne%bool_decide_eq_true Hok. by apply Hc.
    + intros Hempty%bool_decide_eq_false. apply dec_stable in Hempty. subst updates.
      injection Hrun as _ <-. done.
  - destruct s as [w e].
    destruct (_transition_to_cases target w e) as [(_ & _ & Heq)|(x & p & Heq)];
      rewrite Heq; simpl; (split; [ done | intros _ ]); [ | done ].
    unfold transitioned. by destruct (decide (target = VALIDATED)).
  - destruct s as [w e].
    destruct (restore_raises_or_transitions w e) as [[err Heq]|Heq]; rewrite Heq;
      [ simpl; by split | ].
    destruct (_transition_to_cases DRAFT w e) as [(_ & _ & Heq')|(x & p & Heq')];
      rewrite Heq'; simpl; (split; [ done | intros _ ]); [ | done ].
    unfold transitioned. by destruct (decide (DRAFT = VALIDATED)).
Qed.

Lemma run_call_state (c : call) (s : World * aEntity) :
  state (_metadata (run_call c s).2.2) = state (_metadata s.2) ∨
  known_state (state (_metadata (run_call c s).2.2)).
Proof.
  destruct c as [path value|path|updates|target|]; simpl.
  - left. apply (write_keeps (data_set path value) s).
  - left. apply (write_keeps (data_delete path) s).
  - left. apply _update_keeps.
  - destruct s as [w e].
    destruct (_transition_to_cases target w e) as [(Hyes & _ & Heq)|(x & p & Heq)];
      rewrite Heq; cbn [fst snd]; [ right | by left ].
    destruct (transitioned_fields target w e) as [-> _].
    by apply table_allows_known in Hyes as (_ & ? & _).
  - destruct s as [w e].
    destruct (restore_raises_or_transitions w e) as [[err Heq]|Heq]; rewrite Heq;
      [ by left | ].
    destruct (_transition_to_cases DRAFT w e) as [(_ & _ & Heq')|(x & p & Heq')];
      rewrite Heq'; cbn [fst snd]; [ right | by left ].
    destruct (transitioned_fields DRAFT w e) as [-> _]. by left.
Qed.

(** X11: an entity that was constructed and then only called through
    the facade is always in one of the four states of the table. *)
Theorem reachable_state_known (s : World * aEntity) :
  reachable s → known_state (state (_metadata s.2)).
Proof.
  induction 1 as [w schema data ty e w' Hinit|s c _ IH|w e n _ IH].
  - rewrite aEntity__init___eq in Hinit. injection Hinit as <- <-. by left.
  - destruct (run_call_state c s) as [-> | Hknown]; done.
  - exact IH.
Qed.

(** *** Validation and dispatch *)

(** X15: [validate] returns the verdict of the schema pass and
    [validate_or_raise] raises [xEntityValidationError] exactly when
    the pass fails; neither reads the clock nor touches the metadata or
    the field data, and each counts one validation. *)
Theorem validate_or_raise_iff_schema_fails (w : World) (e : aEntity) :
  (xEntity_validate (w, e)).1 = Ok (schema_pass e) ∧
  let '(r, (w', e')) := xEntity_validate_or_raise (w, e) in
  (r = Ok tt ↔ schema_pass e = true) ∧
  (schema_pass e = false →
     r = Raise (xEntityValidationError "Entity validation failed" None None)) ∧
  w' = w ∧ _metadata e' = _metadata e ∧ _data e' = _data e ∧
  validation_count (_performance_stats e') = validation_count (_performance_stats e) + 1.
Proof.
  unfold xEntity_validate_or_raise, xEntity_validate, _validate, schema_pass. run_method.
  split; [ done | ].
  destruct (match _schema e with Some s => _ | None => true end); simpl;
    split_and!; done.
Qed.

(** X16: an object registered under a name is the one [execute_action]
    calls for that name, in the way its kind asks for (the action
    instance of a decorated function, [execute] of an action object, a
    plain call otherwise); it replaces what was registered under the
    name before, and registering changes no other name, nor the
    metadata, the field data or the clock. *)
Theorem registered_action_is_dispatched (name : string) (action : Action)
    (kwargs : Kwargs) (s : World * aEntity) :
  let s1 := (_register_action name action s).2 in
  xEntity_execute_action name kwargs s1 =
    (if has_action_instance action then action_instance_execute action kwargs
     else if has_execute action then action_execute action kwargs
     else action_call action kwargs) s1 ∧
  (∀ other, other ≠ name → _actions s1.2 !! other = _actions s.2 !! other) ∧
  _metadata s1.2 = _metadata s.2 ∧ _data s1.2 = _data s.2 ∧ s1.1 = s.1.
Proof.
  destruct s as [w e]. unfold xEntity_execute_action, _execute_action, _register_action.
  run_method. rewrite lookup_insert_eq. split_and!; try done.
  intros other Hne. by rewrite lookup_insert_ne.
Qed.

(** *** Loading a snapshot *)

(** X17: loading is not atomic. When the ["created_at"] of the metadata
    mapping is not a timestamp, [_from_dict] raises [ValueError] after
    it has overwritten the identifier, the type, the state and the
    version from the mapping; the timestamps, the tags, the metadata
    mapping and the field data are as before, and the factory returns
    no entity. *)
Theorem from_dict_bad_created_at_is_partial (d : EntityDict) (md : MetadataDict)
    (bad : string) (schema : option (xSchema Native)) (w : World) (e : aEntity) :
  k__metadata d = Some md → k_created_at md = Some bad → fromisoformat bad = None →
  ∃ msg w' e',
    _from_dict d (w, e) = (Raise (ValueError msg), (w', e')) ∧
    id (_metadata e') = dict_get (uuid4 (uuid_draws w)) (k_id md) ∧
    type_ (_metadata e') = dict_get "entity" (k_type md) ∧
    state (_metadata e') = dict_get DRAFT (k_state md) ∧
    version (_metadata e') = dict_get 1 (k_version md) ∧
    created_at (_metadata e') = created_at (_metadata e) ∧
    updated_at (_metadata e') = updated_at (_metadata e) ∧
    tags (_metadata e') = tags (_metadata e) ∧
    metadata (_metadata e') = metadata (_metadata e) ∧
    _data e' = _data e ∧
    (aEntityFactory_from_dict d schema w).1 = Raise (ValueError msg).
Proof.
  intros Hmd Hbad Hfail.
  unfold aEntityFactory_from_dict, aEntity__init__, xEntityMetadata__init__.
  unfold _from_dict, metadata_from_dict, datetime_fromisoformat.
  rewrite Hmd. run_method. rewrite Hbad. simpl. rewrite Hfail. simpl.
  eexists _, _, _. split_and!; reflexivity.
Qed.

(** X18: a snapshot without ["_metadata"] gives what the constructor
    gives, a new entity in [DRAFT] at version 1 with the identifier
    drawn for it, holding the ["_data"] of the snapshot if there is
    one; the ["_schema"] and ["_actions"] entries are not read. *)
Theorem from_dict_without_metadata (data : option Native)
    (exported_schema : option (option string * option string))
    (exported_actions : option (gmap string Value))
    (schema : option (xSchema Native)) (w : World) :
  xEntity_from_dict
    {| k__metadata := None; k__data := data;
       k__schema := exported_schema; k__actions := exported_actions |} schema w =
  (Ok (fresh_entity w schema (inl <$> data) None), tick (tick (draw w))).
Proof.
  unfold xEntity_from_dict, aEntityFactory_from_dict, aEntity__init__,
    xEntityMetadata__init__, _from_dict, fresh_entity.
  run_method. by destruct data.
Qed.

(** X19: an entity loaded from the export of [e] has the identifier,
    the type and both timestamps of [e]: loading draws an identifier
    and reads the clock, and keeps neither. It has the schema the
    caller passed, and no action, cache entry or counter of [e]. *)
Theorem snapshot_keeps_identity_drops_actions
    (Hiso : ∀ t : Z, fromisoformat (isoformat t) = Some t)
    (e : aEntity) (schema : option (xSchema Native)) (w : World) :
  ∃ e',
    xEntity_from_dict (xEntity_to_dict e) schema w
      = (Ok e', tick (tick (draw (tick (tick (draw w)))))) ∧
    id (_metadata e') = id (_metadata e) ∧
    type_ (_metadata e') = type_ (_metadata e) ∧
    created_at (_metadata e') = created_at (_metadata e) ∧
    updated_at (_metadata e') = updated_at (_metadata e) ∧
    _schema e' = schema ∧ _actions e' = ∅ ∧
    _cache e' = ∅ ∧ _schema_cache e' = None ∧
    _performance_stats e' =
      {| access_count := 0; validation_count := 0; cache_hits := 0; cache_misses := 0 |}.
Proof.
  unfold xEntity_from_dict, aEntityFactory_from_dict, xEntity_to_dict, _to_dict, _from_dict.
  unfold aEntity__init__, xEntityMetadata__init__.
  cbv [mbind mret M_bind M_ret on_object in_metadata zoom uuid4_str datetime_now].
  cbn [fst snd k__metadata k__data _metadata set__metadata].
  rewrite (metadata_from_dict_to_dict Hiso). simpl.
  eexists. split_and!; reflexivity.
Qed.

(** *** Properties, accessors and modes *)

(** X20: a property is required exactly when it has no default of its
    own and its schema gives none; a default of its own is kept, and
    the default of the schema stands in only when there is none. *)
Theorem property_required_iff_no_default (name : string) (schema : option FieldSchema)
    (dflt : option Value) :
  let p := PropertyInfo__init__ name schema dflt in
  (is_required p = true ↔
     dflt = None ∧ ∀ s, schema = Some s → _default s = None) ∧
  (is_required p = false ↔ is_Some (default p)) ∧
  (∀ v, dflt = Some v → default p = Some v) ∧
  (dflt = None → ∀ s, schema = Some s → default p = _default s) ∧
  (dflt = None → schema = None → default p = None).
Proof.
  unfold PropertyInfo__init__. simpl.
  destruct dflt as [v|]; [ | destruct schema as [s|];
                               [ destruct (_default s) as [v'|] eqn:Hs | ] ]; simpl.
  - split_and!; try done. split; [ done | by intros [? _] ].
  - split_and!; try done.
    + split; [ done | ]. intros [_ Hnone]. specialize (Hnone s eq_refl). congruence.
    + intros _ s' [= <-]. by rewrite Hs.
  - split_and!; try done.
    + split; [ | done ]. intros _. split; [ done | ]. by intros s' [= <-].
    + intros _ s' [= <-]. by rewrite Hs.
  - by split_and!.
Qed.

Lemma private_name_inj (p q : PropertyInfo) :
  private_name p = private_name q → name p = name q.
Proof. unfold private_name. simpl. by intros [= ?]. Qed.



(** The chains of getters and setters end before the fuel does in a
    class whose properties stand under their own names. *)
Lemma attribute_depth_bound (attr : string) (a : ClassAttribute) (self : Instance) :
  __class__ self !! attr = Some a → (String.length attr < attribute_depth self)%nat.
Proof.
  intros Hin. unfold attribute_depth. apply Nat.lt_succ_r, max_list_elem_of_le.
  apply list_elem_of_fmap. exists attr. split; [ done | ].
  apply list_elem_of_fmap. exists (attr, a). split; [ done | ].
  by apply elem_of_map_to_list.
Qed.

Lemma private_name_length (prop : PropertyInfo) :
  String.length (private_name prop) = S (String.length (name prop)).
Proof. reflexivity. Qed.

Lemma getattr_fuel_enough (self : Instance) (n m : nat) (attr : string)
    (dflt : option Value) :
  named_properties (__class__ self) →
  (attribute_depth self ≤ n + String.length attr)%nat →
  (attribute_depth self ≤ m + String.length attr)%nat →
  getattr_fuel n attr dflt self = getattr_fuel m attr dflt self.
Proof.
  intros Hnamed. revert m attr dflt.
  induction n as [|n IH]; intros m attr dflt Hn Hm;
    destruct (__class__ self !! attr) as [[prop|prop| |v]|] eqn:Hcls;
    destruct m as [|m]; simpl; rewrite Hcls; try done;
    pose proof (attribute_depth_bound _ _ _ Hcls) as Hlt; try lia.
  apply IH; rewrite private_name_length, (Hnamed _ _ Hcls); lia.
Qed.

Lemma setattr_fuel_enough (self : Instance) (config : xEntityConfig) (n m : nat)
    (attr : string) (value : Value) :
  named_properties (__class__ self) →
  (attribute_depth self ≤ n + String.length attr)%nat →
  (attribute_depth self ≤ m + String.length attr)%nat →
  setattr_fuel n config attr value self = setattr_fuel m config attr value self.
Proof.
  intros Hnamed. revert m attr.
  induction n as [|n IH]; intros m attr Hn Hm;
    destruct (__class__ self !! attr) as [[prop|prop| |v]|] eqn:Hcls;
    destruct m as [|m]; simpl; rewrite Hcls; try done;
    pose proof (attribute_depth_bound _ _ _ Hcls) as Hlt; try lia.
  apply IH; rewrite private_name_length, (Hnamed _ _ Hcls); lia.
Qed.

(** Reading or writing an attribute under which the class has a direct
    property runs the getter or the setter of the property: it reads or
    writes the private attribute. *)
Lemma getattr_direct_property (attr : string) (prop : PropertyInfo) (dflt : option Value)
    (self : Instance) :
  named_properties (__class__ self) →
  __class__ self !! attr = Some (DirectProperty prop) →
  getattr attr dflt self = (_create_direct_property default_config prop).1 self.
Proof.
  intros Hnamed Hcls. simpl. unfold direct_getter, getattr.
  rewrite (getattr_fuel_enough self _ (S (attribute_depth self)) attr dflt Hnamed) by lia.
  remember (attribute_depth self) as depth. cbn [getattr_fuel]. by rewrite Hcls.
Qed.

Lemma setattr_direct_property (config : xEntityConfig) (attr : string) (prop : PropertyInfo)
    (value : Value) (self : Instance) :
  named_properties (__class__ self) →
  __class__ self !! attr = Some (DirectProperty prop) →
  setattr config attr value self = (_create_direct_property config prop).2 value self.
Proof.
  intros Hnamed Hcls. simpl. unfold direct_setter, setattr.
  rewrite (setattr_fuel_enough self config _ (S (attribute_depth self)) attr value Hnamed)
    by lia.
  remember (attribute_depth self) as depth. cbn [setattr_fuel]. by rewrite Hcls.
Qed.


(** The namespace a metaclass makes keeps the properties under their
    own names. *)
Lemma metaclass__new___named (mc : Metaclass) (namespace : gmap string ClassAttribute)
    (properties : list PropertyInfo) :
  named_properties namespace → named_properties (metaclass__new__ mc namespace properties).
Proof.
  unfold metaclass__new__. revert namespace.
  induction properties as [|prop rest IH]; intros namespace Hnamed; [ done | ].
  simpl. apply IH. intros attr p.
  destruct (decide (attr = name prop)) as [->|Hne].
  - rewrite lookup_insert_eq. unfold metaclass_attribute.
    destruct mc; try destruct (_is_frequently_accessed prop); by intros [= <-].
  - rewrite lookup_insert_ne by done. apply Hnamed.
Qed.

(** X21: direct properties of different names do not interfere, where
    no property of the class stands under the private name of either.
    The setter of one returns exactly when the instance can hold the
    private attribute, in a slot of that name or in its attribute
    dictionary; when it cannot, as on an instance of [xEntity] itself,
    the setter raises [AttributeError] and writes nothing. When it
    returns, the getter of the property gives the value set. Either
    way the getter of the other property gives what it gave before, and
    the field store of the instance is the one it was. *)
Theorem direct_properties_do_not_interfere (config : xEntityConfig) (p q : PropertyInfo)
    (value : Value) (self : Instance) :
  name p ≠ name q →
  no_property (private_name p) self → no_property (private_name q) self →
  let out := (_create_direct_property config p).2 value self in
  (out.1 = Ok tt ↔ holds_attribute (private_name p) self) ∧
  (out.1 = Ok tt → (_create_direct_property config p).1 out.2 = Ok (Some value)) ∧
  (out.1 ≠ Ok tt → out = (Raise (ForeignError "AttributeError"), self)) ∧
  (_create_direct_property config q).1 out.2 = (_create_direct_property config q).1 self ∧
  data out.2 = data self.
Proof.
  intros Hne Hp Hq. simpl. unfold direct_setter, direct_getter, setattr, getattr.
  rewrite setattr_fuel_no_property by done.
  assert (Hpq : private_name q ≠ private_name p)
    by (intros Heq; by apply Hne, private_name_inj).
  destruct (holds_or_not (private_name p) self) as [Hholds|Hnot].
  - destruct (store_attribute_held _ value _ Hholds)
      as (self' & -> & Hcls & Hdata & Hget & Hother).
    cbn [fst snd].
    assert (Hp' : no_property (private_name p) self')
      by (unfold no_property in *; by rewrite Hcls).
    assert (Hq' : no_property (private_name q) self')
      by (unfold no_property in *; by rewrite Hcls).
    assert (Hdepth : attribute_depth self' = attribute_depth self)
      by (unfold attribute_depth; by rewrite Hcls).
    rewrite !getattr_fuel_no_property by done.
    split_and!; try done.
    + by rewrite Hget.
    + by rewrite Hother.
  - rewrite store_attribute_refused by done. cbn [fst snd].
    split_and!; done.
Qed.


Lemma ascii_lower_idemp (c : ascii) : ascii_lower (ascii_lower c) = ascii_lower c.
Proof. by destruct c as [[] [] [] [] [] [] [] []]. Qed.

Lemma lower_idemp (s : string) : lower (lower s) = lower s.
Proof. induction s as [|c s IH]; simpl; [ reflexivity | by rewrite ascii_lower_idemp, IH ]. Qed.

Lemma frequent_names_lower (n : string) : n ∈ frequent_names → lower n = n.
Proof.
  unfold frequent_names. rewrite !elem_of_cons, elem_of_nil.
  intros [->|[->|[->|[->|[->|[->|[]]]]]]]; reflexivity.
Qed.


(** X24: a property counts as frequently accessed exactly when its name
    is one of id, name, username, email, status and active up to the
    case of its letters. *)
Theorem frequently_accessed_up_to_case (prop : PropertyInfo) :
  _is_frequently_accessed prop = true ↔
  ∃ n, n ∈ frequent_names ∧ lower (name prop) = lower n.
Proof.
  unfold _is_frequently_accessed. rewrite bool_decide_eq_true. split.
  - intros Hin. exists (lower (name prop)). by rewrite lower_idemp.
  - intros (n & Hin & Heq). rewrite Heq. by rewrite (frequent_names_lower n Hin).
Qed.

(** *** The configuration manager *)

Lemma register_all_state (classes : list (string * Z)) (m : xEntityConfigManager) :
  let out := register_all classes m in
  _config out.2 = _config m ∧
  auto_property_threshold out.2 = auto_property_threshold m ∧
  auto_instance_threshold out.2 = auto_instance_threshold m ∧
  _instance_count out.2 = _instance_count m + Z.of_nat (length classes) ∧
  length out.1 = length classes.
Proof.
  revert m. induction classes as [|[class_name property_count] rest IH]; intros m.
  - simpl. split_and!; try reflexivity. lia.
  - cbn [register_all]. unfold register_entity_creation.
    match goal with |- context [register_all rest ?m'] =>
      specialize (IH m'); destruct (register_all rest m') as [modes m''] end.
    simpl in IH |- *. destruct IH as (-> & -> & -> & -> & ->).
    split_and!; try reflexivity. lia.
Qed.

(** X25: under AUTO a registration answers MEMORY exactly when the
    class has more properties than the property threshold or the
    number of registrations, this one counted, exceeds the instance
    threshold; otherwise it answers PERFORMANCE. *)
Theorem auto_mode_selects_by_size (class_name : string) (property_count : Z)
    (m : xEntityConfigManager) :
  performance_mode (_config m) = AUTO →
  let mode := (register_entity_creation class_name property_count m).1 in
  let large :=
    property_count > auto_property_threshold m ∨
    _instance_count m + 1 > auto_instance_threshold m in
  (mode = MEMORY ↔ large) ∧ (mode = PERFORMANCE ↔ ¬ large).
Proof.
  intros Hauto. unfold register_entity_creation, _get_effective_mode. simpl.
  rewrite Hauto.
  destruct (decide (property_count > auto_property_threshold m)) as [Hp|Hp];
    [ | destruct (decide (_instance_count m + 1 > auto_instance_threshold m)) as [Hi|Hi] ].
  - clear -Hp. split; split; try done; [ by left | tauto ].
  - clear -Hi. split; split; try done; [ by right | tauto ].
  - clear -Hp Hi. split; split; try done; tauto.
Qed.

(** X26: a run of registrations adds their number to the instance
    count, leaves the configuration and both thresholds as they were and
    answers one mode for each; when the mode of the configuration is
    not AUTO every answer is that mode. *)
Theorem registrations_are_counted (classes : list (string * Z)) (m : xEntityConfigManager) :
  let out := register_all classes m in
  _instance_count out.2 = _instance_count m + Z.of_nat (length classes) ∧
  _config out.2 = _config m ∧
  length out.1 = length classes ∧
  (performance_mode (_config m) ≠ AUTO →
   Forall (λ mode, mode = performance_mode (_config m)) out.1).
Proof.
  pose proof (register_all_state classes m) as (Hc & _ & _ & Hn & Hl).
  simpl. split_and!; try done. clear.
  revert m. induction classes as [|[class_name property_count] rest IH]; intros m Hne.
  - constructor.
  - cbn [register_all]. unfold register_entity_creation.
    match goal with |- context [register_all rest ?m'] =>
      specialize (IH m'); destruct (register_all rest m') as [modes m''] eqn:Hrest end.
    simpl in IH |- *. constructor; [ | by apply IH ].
    unfold _get_effective_mode. simpl. by destruct (performance_mode (_config m)).
Qed.

(** X27: under AUTO, once the instance count has reached the instance
    threshold every later registration answers MEMORY, whatever the
    size of the class. *)
Theorem auto_mode_latches_to_memory (classes : list (string * Z))
    (m : xEntityConfigManager) :
  performance_mode (_config m) = AUTO →
  auto_instance_threshold m ≤ _instance_count m →
  Forall (λ mode, mode = MEMORY) (register_all classes m).1.
Proof.
  revert m. induction classes as [|[class_name property_count] rest IH]; intros m Hauto Hle.
  - constructor.
  - cbn [register_all]. unfold register_entity_creation.
    match goal with |- context [register_all rest ?m'] =>
      specialize (IH m'); destruct (register_all rest m') as [modes m''] eqn:Hrest end.
    simpl in IH |- *. constructor; [ | apply IH; [ exact Hauto | lia ] ].
    unfold _get_effective_mode. simpl. rewrite Hauto.
    destruct (decide (property_count > auto_property_threshold m)); [ reflexivity | ].
    destruct (decide (_instance_count m + 1 > auto_instance_threshold m)); [ reflexivity | lia ].
Qed.

End Runtime.

(** ** Properties of the entity cache *)

Section CacheProperties.

Context {V : Type}.

Import xEntityCache.

Lemma od_get_app_None (key : string) (d1 d2 : OrderedDict V) :
  od_get key d1 = None → od_get key (d1 ++ d2) = od_get key d2.
Proof.
  unfold od_get. induction d1 as [|[k v] d1 IH]; simpl; [ done | ].
  case_bool_decide; simpl; [ discriminate | exact IH ].
Qed.

Lemma od_get_singleton (key : string) (v : V) : od_get key [(key, v)] = Some v.
Proof. unfold od_get. simpl. by rewrite bool_decide_eq_true_2. Qed.

Lemma od_get_singleton_ne (key k : string) (v : V) : k ≠ key → od_get key [(k, v)] = None.
Proof. intros Hne. unfold od_get. simpl. by rewrite bool_decide_eq_false_2. Qed.

Lemma od_get_cons_ne (key k : string) (v : V) (d : OrderedDict V) :
  k ≠ key → od_get key ((k, v) :: d) = od_get key d.
Proof. intros Hne. unfold od_get. simpl. by rewrite bool_decide_eq_false_2. Qed.

Lemma od_get_remove (key : string) (d : OrderedDict V) : od_get key (od_remove key d) = None.
Proof.
  unfold od_get, od_remove. induction d as [|[k v] d IH]; simpl; [ done | ].
  case_bool_decide as Hk; simpl; [ exact IH | ].
  rewrite bool_decide_eq_false_2 by exact Hk. exact IH.
Qed.

Lemma od_get_tail (key : string) (d : OrderedDict V) :
  od_get key d = None → od_get key (od_popitem_first d) = None.
Proof.
  unfold od_get. destruct d as [|[k v] d]; simpl; [ done | ].
  case_bool_decide; simpl; [ discriminate | done ].
Qed.

Lemma od_get_setitem (key : string) (v : V) (d : OrderedDict V) :
  od_get key (od_setitem key v d) = Some v.
Proof.
  unfold od_setitem, od_contains. case_bool_decide as Hin.
  - destruct Hin as [v0 Hin]. revert Hin. unfold od_get.
    induction d as [|[k v1] d IH]; simpl; [ discriminate | ].
    case_bool_decide as Hk; simpl.
    + intros _. by rewrite bool_decide_eq_true_2.
    + rewrite bool_decide_eq_false_2 by exact Hk. exact IH.
  - rewrite od_get_app_None; [ apply od_get_singleton | ].
    destruct (od_get key d); [ destruct Hin; eauto | done ].
Qed.

(** After [put] in a cache of bound at least one, the key is the newest
    item and occurs nowhere else. *)
Lemma put_newest (key : string) (v : V) (c : t V) :
  1 ≤ _max_size c →
  ∃ older, _cache (put key v c) = older ++ [(key, v)] ∧ od_get key older = None.
Proof.
  intros Hbound. unfold put, _put_impl, od_move_to_end. simpl.
  rewrite od_get_setitem.
  set (older := od_remove key (od_setitem key v (_cache c))).
  assert (Hold : od_get key older = None) by apply od_get_remove.
  case_decide as Hfull.
  - destruct older as [|kv older'].
    + simpl in Hfull. lia.
    + exists older'. split; [ reflexivity | ].
      apply (od_get_tail key (kv :: older')), Hold.
  - exists older. by split.
Qed.

Lemma od_remove_absent (key : string) (d : OrderedDict V) :
  od_get key d = None → od_remove key d = d.
Proof.
  unfold od_get, od_remove. induction d as [|[k v] d IH]; simpl; [ done | ].
  case_bool_decide; simpl; [ discriminate | ]. intros Hd. by rewrite IH.
Qed.

Lemma od_remove_app (key : string) (d1 d2 : OrderedDict V) :
  od_remove key (d1 ++ d2) = od_remove key d1 ++ od_remove key d2.
Proof. unfold od_remove. apply List.filter_app. Qed.

(** [put] of a key the cache does not hold: the item goes to the end and
    the oldest item leaves when the bound is exceeded. *)
Lemma put_absent (key : string) (v : V) (c : t V) :
  od_get key (_cache c) = None →
  _max_size (put key v c) = _max_size c ∧
  _cache (put key v c) =
    if decide (Z.of_nat (S (length (_cache c))) > _max_size c)
    then od_popitem_first (_cache c ++ [(key, v)])
    else _cache c ++ [(key, v)].
Proof.
  intros Habs. split; [ reflexivity | ].
  unfold put, _put_impl, od_move_to_end. simpl. rewrite od_get_setitem.
  unfold od_setitem, od_contains. rewrite Habs.
  rewrite bool_decide_eq_false_2 by (intros [? ?]; discriminate).
  rewrite od_remove_app, (od_remove_absent _ _ Habs).
  unfold od_remove at 1. simpl. rewrite bool_decide_eq_true_2 by done. simpl.
  rewrite app_nil_r, length_app, Nat.add_1_r. reflexivity.
Qed.

(** C6, for a cache whose bound is at least one: [get] right after
    [put] returns the value put and counts a hit; and three distinct
    keys put into a new cache of bound 2 leave the second and the third
    and not the first. *)
Theorem put_get_hit_and_lru_eviction :
  (∀ (c : t V) (k : string) (v : V),
     1 ≤ _max_size c →
     let '(r, c') := get k (put k v c) in
     r = Some v ∧
     _hit_count c' = _hit_count c + 1 ∧
     _miss_count c' = _miss_count c) ∧
  (∀ (k1 k2 k3 : string) (v1 v2 v3 : V),
     k1 ≠ k2 → k1 ≠ k3 → k2 ≠ k3 →
     _cache (put k3 v3 (put k2 v2 (put k1 v1 (__init__ 2)))) = [(k2, v2); (k3, v3)]).
Proof.
  split.
  - intros c k v Hbound.
    destruct (put_newest k v c Hbound) as (older & Hshape & Hold).
    assert (Hget : od_get k (older ++ [(k, v)]) = Some v)
      by (rewrite od_get_app_None by exact Hold; apply od_get_singleton).
    unfold get, _get_impl, od_contains, od_move_to_end. rewrite Hshape, Hget.
    rewrite bool_decide_eq_true_2 by eauto. simpl.
    repeat split.
    rewrite od_get_app_None by apply od_get_remove. apply od_get_singleton.
  - intros k1 k2 k3 v1 v2 v3 H12 H13 H23.
    destruct (put_absent k1 v1 (__init__ 2) eq_refl) as [Hm1 Hc1].
    remember (put k1 v1 (__init__ 2)) as c1 eqn:E1. clear E1.
    rewrite decide_False in Hc1 by (simpl; lia). simpl in Hm1, Hc1.
    destruct (put_absent k2 v2 c1) as [Hm2 Hc2].
    { rewrite Hc1. by apply od_get_singleton_ne. }
    remember (put k2 v2 c1) as c2 eqn:E2. clear E2.
    rewrite Hc1, Hm1 in Hc2. rewrite decide_False in Hc2 by (simpl; lia).
    simpl in Hc2.
    destruct (put_absent k3 v3 c2) as [_ Hc3].
    { rewrite Hc2, !od_get_cons_ne by done. reflexivity. }
    rewrite Hc3, Hc2, Hm2, Hm1. rewrite decide_True by (simpl; lia). reflexivity.
Qed.

(** *** Bound, keys and recency *)

Lemma od_get_None_keys (key : string) (d : OrderedDict V) :
  od_get key d = None ↔ key ∉ od_keys d.
Proof.
  unfold od_get, od_keys. induction d as [|[k v] d IH]; simpl.
  - split; [ intros _; apply not_elem_of_nil | done ].
  - rewrite not_elem_of_cons. case_bool_decide as Hk; simpl.
    + split; [ discriminate | intros [Hne _]; congruence ].
    + rewrite IH. split; [ intros Hd; split; [ congruence | exact Hd ] | intros [_ Hd]; exact Hd ].
Qed.

Lemma od_keys_remove (key : string) (d : OrderedDict V) :
  od_keys (od_remove key d) = List.filter (λ k, negb (bool_decide (k = key))) (od_keys d).
Proof.
  unfold od_keys, od_remove. induction d as [|[k v] d IH]; [ done | ].
  rewrite fmap_cons. cbn [List.filter fst].
  destruct (bool_decide (k = key)); cbn [negb]; rewrite ?fmap_cons; by rewrite IH.
Qed.

Lemma NoDup_filter_keys (f : string → bool) (l : list string) :
  NoDup l → NoDup (List.filter f l).
Proof.
  induction 1 as [|k l Hk _ IH]; simpl; [ constructor | ].
  destruct (f k); [ | exact IH ].
  constructor; [ | exact IH ].
  rewrite list_elem_of_In, List.filter_In, <- list_elem_of_In. tauto.
Qed.

Lemma od_keys_setitem_present (key : string) (v : V) (d : OrderedDict V) :
  od_keys (List.map (λ kv, if bool_decide (kv.1 = key) then (key, v) else kv) d)
    = od_keys d.
Proof.
  unfold od_keys. induction d as [|[k v0] d IH]; [ done | ].
  cbn [List.map]. rewrite !fmap_cons, IH. cbn [fst].
  case_bool_decide; cbn [fst]; congruence.
Qed.

Lemma NoDup_keys_setitem (key : string) (v : V) (d : OrderedDict V) :
  NoDup (od_keys d) → NoDup (od_keys (od_setitem key v d)).
Proof.
  intros Hd. unfold od_setitem, od_contains. case_bool_decide as Hin.
  - by rewrite od_keys_setitem_present.
  - unfold od_keys. rewrite fmap_app. simpl. apply NoDup_app. split; [ exact Hd | ].
    split; [ | apply NoDup_singleton ].
    intros k Hk Hk'. apply list_elem_of_singleton in Hk'. subst k.
    apply (od_get_None_keys key d); [ | exact Hk ].
    destruct (od_get key d); [ destruct Hin; eauto | done ].
Qed.

Lemma NoDup_keys_move_to_end (key : string) (d : OrderedDict V) :
  NoDup (od_keys d) → NoDup (od_keys (od_move_to_end key d)).
Proof.
  intros Hd. unfold od_move_to_end. destruct (od_get key d) as [v|]; [ | exact Hd ].
  unfold od_keys at 1. rewrite fmap_app. simpl. apply NoDup_app.
  split; [ fold (od_keys (od_remove key d)); rewrite od_keys_remove;
           by apply NoDup_filter_keys | ].
  split; [ | apply NoDup_singleton ].
  intros k Hk Hk'. apply list_elem_of_singleton in Hk'. subst k.
  by apply (od_get_None_keys key (od_remove key d)); [ apply od_get_remove | ].
Qed.

Lemma NoDup_keys_tail (d : OrderedDict V) :
  NoDup (od_keys d) → NoDup (od_keys (od_popitem_first d)).
Proof.
  destruct d as [|kv d]; simpl; [ done | ]. unfold od_keys. simpl.
  by intros [_ Hd]%NoDup_cons.
Qed.

Lemma run_op_keeps_keys_unique (c : t V) (o : op V) :
  NoDup (od_keys (_cache c)) → NoDup (od_keys (_cache (run_op c o))).
Proof.
  intros Hc. destruct o as [key|key v|]; simpl.
  - unfold get, _get_impl. destruct (od_contains key (_cache c)); simpl;
      [ by apply NoDup_keys_move_to_end | exact Hc ].
  - unfold put, _put_impl. simpl.
    assert (NoDup (od_keys (od_move_to_end key (od_setitem key v (_cache c)))))
      by by apply NoDup_keys_move_to_end, NoDup_keys_setitem.
    case_decide; [ by apply NoDup_keys_tail | done ].
  - constructor.
Qed.

(** X1: the cache holds one item per key: whatever calls were made on a
    new cache, no key occurs twice in it. *)
Theorem cache_keys_unique (max_size : Z) (ops : list (op V)) :
  NoDup (od_keys (_cache (run_ops ops (__init__ max_size)))).
Proof.
  unfold run_ops.
  assert (Hinit : NoDup (od_keys (_cache (__init__ (V := V) max_size)))) by constructor.
  revert Hinit. generalize (__init__ (V := V) max_size).
  induction ops as [|o ops IH]; intros c Hc; simpl; [ exact Hc | ].
  by apply IH, run_op_keeps_keys_unique.
Qed.

Lemma length_od_remove (key : string) (d : OrderedDict V) :
  (length (od_remove key d) ≤ length d)%nat ∧
  (is_Some (od_get key d) → length (od_remove key d) < length d)%nat.
Proof.
  unfold od_remove, od_get. induction d as [|[k v] d [IHle IHlt]]; simpl.
  - split; [ lia | intros [? ?]; discriminate ].
  - case_bool_decide; simpl; split; try lia. intros Hd. specialize (IHlt Hd). lia.
Qed.

Lemma length_od_setitem (key : string) (v : V) (d : OrderedDict V) :
  (length (od_setitem key v d) ≤ S (length d))%nat.
Proof.
  unfold od_setitem. destruct (od_contains key d).
  - rewrite length_map. lia.
  - rewrite length_app. simpl. lia.
Qed.

Lemma length_od_move_to_end (key : string) (d : OrderedDict V) :
  (length (od_move_to_end key d) ≤ length d)%nat.
Proof.
  unfold od_move_to_end. destruct (od_get key d) as [v|] eqn:Hget; [ | lia ].
  rewrite length_app. simpl.
  destruct (length_od_remove key d) as [_ Hlt]. rewrite Hget in Hlt.
  specialize (Hlt (mk_is_Some _ _ eq_refl)). lia.
Qed.

Lemma run_op_within_bound (c : t V) (o : op V) :
  Z.of_nat (length (_cache c)) ≤ _max_size c →
  Z.of_nat (length (_cache (run_op c o))) ≤ _max_size (run_op c o) ∧
  _max_size (run_op c o) = _max_size c.
Proof.
  intros Hc. destruct o as [key|key v|]; simpl.
  - unfold get, _get_impl. destruct (od_contains key (_cache c)); simpl;
      [ | by split ].
    split; [ | reflexivity ]. pose proof (length_od_move_to_end key (_cache c)). lia.
  - unfold put, _put_impl. simpl. split; [ | reflexivity ].
    pose proof (length_od_move_to_end key (od_setitem key v (_cache c))).
    pose proof (length_od_setitem key v (_cache c)).
    case_decide; [ | lia ].
    unfold od_popitem_first.
    destruct (od_move_to_end key (od_setitem key v (_cache c))); simpl in *; lia.
  - split; [ lia | reflexivity ].
Qed.

(** X2: the bound of the cache is kept: a cache that holds no more
    items than its bound still does after any calls, and its bound is
    the one it was made with. *)
Theorem cache_never_exceeds_bound (c : t V) (ops : list (op V)) :
  Z.of_nat (length (_cache c)) ≤ _max_size c →
  Z.of_nat (length (_cache (run_ops ops c))) ≤ _max_size c ∧
  _max_size (run_ops ops c) = _max_size c.
Proof.
  unfold run_ops. revert c. induction ops as [|o ops IH]; intros c Hc; simpl.
  - by split.
  - destruct (run_op_within_bound c o Hc) as [Hlen Hmax].
    destruct (IH (run_op c o) Hlen) as [Hlen' Hmax']. rewrite <- Hmax. by split; congruence.
Qed.

Lemma od_get_app_Some (key : string) (v : V) (d1 d2 : OrderedDict V) :
  od_get key d1 = Some v → od_get key (d1 ++ d2) = Some v.
Proof.
  unfold od_get. induction d1 as [|[k v1] d1 IH]; simpl; [ discriminate | ].
  case_bool_decide; simpl; [ done | exact IH ].
Qed.

Lemma od_get_remove_ne (key k : string) (d : OrderedDict V) :
  k ≠ key → od_get k (od_remove key d) = od_get k d.
Proof.
  intros Hne. unfold od_get, od_remove. induction d as [|[k0 v0] d IH]; simpl; [ done | ].
  case_bool_decide as H0; simpl.
  - subst k0. rewrite (bool_decide_eq_false_2 (key = k)) by congruence. exact IH.
  - case_bool_decide; simpl; [ done | exact IH ].
Qed.

(** Moving a key to the end changes the order of the items and no
    lookup. *)
Lemma od_get_move_to_end (key k : string) (d : OrderedDict V) :
  od_get k (od_move_to_end key d) = od_get k d.
Proof.
  unfold od_move_to_end. destruct (od_get key d) as [v|] eqn:Hget; [ | done ].
  destruct (decide (k = key)) as [->|Hne].
  - rewrite od_get_app_None by apply od_get_remove. by rewrite od_get_singleton.
  - destruct (od_get k d) as [v'|] eqn:Hk.
    + apply od_get_app_Some. by rewrite od_get_remove_ne.
    + rewrite od_get_app_None by (by rewrite od_get_remove_ne).
      apply od_get_singleton_ne. congruence.
Qed.

(** X3: [get] returns what the cache holds for the key and counts the
    call: a hit when the key is there, a miss (and [None]) when it is
    not. A miss leaves the items as they are; a hit changes only their
    order, no key maps to another value. *)
Theorem get_returns_held_value (key : string) (c : t V) :
  let '(r, c') := get key c in
  r = od_get key (_cache c) ∧
  (∀ k, od_get k (_cache c') = od_get k (_cache c)) ∧
  _max_size c' = _max_size c ∧
  match r with
  | Some _ => _hit_count c' = _hit_count c + 1 ∧ _miss_count c' = _miss_count c
  | None => _hit_count c' = _hit_count c ∧ _miss_count c' = _miss_count c + 1 ∧
            _cache c' = _cache c
  end.
Proof.
  unfold get, _get_impl, od_contains.
  destruct (od_get key (_cache c)) as [v|] eqn:Hget.
  - rewrite bool_decide_eq_true_2 by eauto. simpl.
    rewrite od_get_move_to_end, Hget. repeat split.
    intros k. apply od_get_move_to_end.
  - rewrite bool_decide_eq_false_2 by (intros [? ?]; discriminate). simpl.
    repeat split.
Qed.

Lemma od_remove_setitem (key : string) (v : V) (d : OrderedDict V) :
  od_remove key (od_setitem key v d) = od_remove key d.
Proof.
  unfold od_setitem. destruct (od_contains key d).
  - unfold od_remove. induction d as [|[k v0] d IH]; simpl; [ done | ].
    destruct (decide (k = key)) as [->|Hk].
    + rewrite !(bool_decide_eq_true_2 (key = key)) by done. simpl.
      rewrite ?(bool_decide_eq_true_2 (key = key)) by done. exact IH.
    + rewrite !(bool_decide_eq_false_2 (k = key)) by done. simpl.
      rewrite ?(bool_decide_eq_false_2 (k = key)) by done. simpl. by rewrite IH.
  - rewrite od_remove_app. unfold od_remove at 2. simpl.
    rewrite bool_decide_eq_true_2 by done. simpl. apply app_nil_r.
Qed.

(** What [put] leaves: the other items in their order, then the item
    put, less the oldest item when that is more than the bound. *)
Lemma put_items (key : string) (v : V) (c : t V) :
  _cache (put key v c) =
    let d := od_remove key (_cache c) ++ [(key, v)] in
    if decide (Z.of_nat (length d) > _max_size c) then od_popitem_first d else d.
Proof.
  unfold put, _put_impl, od_move_to_end. simpl.
  by rewrite od_get_setitem, od_remove_setitem.
Qed.

(** X4: [put] on a key the cache holds, in a cache within its bound:
    the value is replaced, the key becomes the newest, nothing is
    evicted and no other key changes. *)
Theorem put_held_key_replaces (key : string) (v v0 : V) (c : t V) :
  od_get key (_cache c) = Some v0 →
  Z.of_nat (length (_cache c)) ≤ _max_size c →
  _cache (put key v c) = od_remove key (_cache c) ++ [(key, v)] ∧
  od_get key (_cache (put key v c)) = Some v ∧
  (∀ k, k ≠ key → od_get k (_cache (put key v c)) = od_get k (_cache c)) ∧
  (length (_cache (put key v c)) ≤ length (_cache c))%nat.
Proof.
  intros Hheld Hbound.
  destruct (length_od_remove key (_cache c)) as [_ Hlt].
  specialize (Hlt (mk_is_Some _ _ Hheld)).
  assert (Hitems : _cache (put key v c) = od_remove key (_cache c) ++ [(key, v)]).
  { rewrite put_items. simpl. rewrite decide_False; [ done | ].
    rewrite length_app. simpl. lia. }
  rewrite Hitems. split; [ done | ]. split; [ | split ].
  - rewrite od_get_app_None by apply od_get_remove. apply od_get_singleton.
  - intros k Hne. destruct (od_get k (_cache c)) as [vk|] eqn:Hk.
    + apply od_get_app_Some. by rewrite od_get_remove_ne.
    + rewrite od_get_app_None by (by rewrite od_get_remove_ne).
      apply od_get_singleton_ne. congruence.
  - rewrite length_app. simpl. lia.
Qed.

Lemma od_get_cons_eq (key : string) (v : V) (d : OrderedDict V) :
  od_get key ((key, v) :: d) = Some v.
Proof. unfold od_get. simpl. by rewrite bool_decide_eq_true_2. Qed.

(** X5: [put] changes the key put and at most one other key: the oldest
    of the others, which is evicted when the bound is exceeded. *)
Theorem put_keeps_all_but_oldest (key k : string) (v : V) (c : t V) :
  NoDup (od_keys (_cache c)) → k ≠ key →
  od_get k (_cache (put key v c)) = od_get k (_cache c) ∨
  (head (od_keys (od_remove key (_cache c))) = Some k ∧
   od_get k (_cache (put key v c)) = None ∧
   _max_size c < Z.of_nat (length (od_remove key (_cache c) ++ [(key, v)]))).
Proof.
  intros Hnodup Hne. rewrite put_items. simpl.
  assert (Hkeep : od_get k (od_remove key (_cache c) ++ [(key, v)]) = od_get k (_cache c)).
  { destruct (od_get k (_cache c)) as [vk|] eqn:Hk.
    - apply od_get_app_Some. by rewrite od_get_remove_ne.
    - rewrite od_get_app_None by (by rewrite od_get_remove_ne).
      apply od_get_singleton_ne. congruence. }
  case_decide as Hfull; [ | by left ].
  assert (Hnodup' : NoDup (od_keys (od_remove key (_cache c))))
    by (rewrite od_keys_remove; by apply NoDup_filter_keys).
  destruct (od_remove key (_cache c)) as [|[k0 v0] rest] eqn:Hrest.
  - left. simpl in *. rewrite <- Hkeep. by rewrite od_get_singleton_ne by congruence.
  - simpl. destruct (decide (k0 = k)) as [->|Hk0].
    + right. split; [ reflexivity | ]. split; [ | exact (Z.gt_lt _ _ Hfull) ].
      unfold od_keys in Hnodup'. simpl in Hnodup'. apply NoDup_cons in Hnodup' as [Hnotin _].
      rewrite od_get_app_None by (by apply od_get_None_keys).
      apply od_get_singleton_ne. congruence.
    + left. rewrite <- Hkeep. simpl.
      rewrite (od_get_cons_ne k k0 v0) by exact Hk0. reflexivity.
Qed.

Lemma length_od_remove_NoDup (key : string) (v : V) (d : OrderedDict V) :
  NoDup (od_keys d) → od_get key d = Some v →
  S (length (od_remove key d)) = length d.
Proof.
  unfold od_keys. induction d as [|[k v0] d IH]; [ discriminate | ].
  rewrite fmap_cons. intros [Hnotin Hd]%NoDup_cons. simpl in Hnotin.
  destruct (decide (k = key)) as [->|Hne].
  - intros _. unfold od_remove at 1. simpl. rewrite bool_decide_eq_true_2 by done. simpl.
    f_equal. fold (od_remove key d). f_equal. apply od_remove_absent.
    by apply od_get_None_keys.
  - rewrite od_get_cons_ne by exact Hne. intros Hget.
    unfold od_remove at 1. simpl. rewrite bool_decide_eq_false_2 by exact Hne. simpl.
    f_equal. by apply IH.
Qed.

(** X6: eviction follows the last access, not the insertion: in a full
    cache with two keys or more, a [get] on a key it holds followed by
    a [put] of a new key evicts the oldest of the other keys; the key
    read stays, next to the newest. *)
Theorem get_refreshes_recency (key new_key : string) (held v : V) (c : t V) :
  NoDup (od_keys (_cache c)) →
  od_get key (_cache c) = Some held →
  od_get new_key (_cache c) = None →
  Z.of_nat (length (_cache c)) = _max_size c →
  (2 ≤ length (_cache c))%nat →
  ∃ oldest rest,
    od_remove key (_cache c) = oldest :: rest ∧
    _cache (put new_key v (get key c).2) = rest ++ [(key, held); (new_key, v)] ∧
    od_get key (_cache (put new_key v (get key c).2)) = Some held.
Proof.
  intros Hnodup Hheld Hnew Hfull Htwo.
  pose proof (length_od_remove_NoDup key held (_cache c) Hnodup Hheld) as Hlen.
  destruct (od_remove key (_cache c)) as [|oldest rest] eqn:Hothers;
    [ simpl in Hlen; lia | ].
  exists oldest, rest. split; [ reflexivity | ].
  assert (Hne : new_key ≠ key) by congruence.
  assert (Hread : _cache (get key c).2 = (oldest :: rest) ++ [(key, held)]).
  { unfold get, _get_impl, od_contains, od_move_to_end. rewrite Hheld.
    rewrite bool_decide_eq_true_2 by eauto. simpl. by rewrite Hothers. }
  assert (Hmax : _max_size (get key c).2 = _max_size c).
  { unfold get, _get_impl. by destruct (od_contains key (_cache c)). }
  assert (Habsent : od_get new_key ((oldest :: rest) ++ [(key, held)]) = None).
  { rewrite od_get_app_None; [ by apply od_get_singleton_ne | ].
    rewrite <- Hothers. by rewrite od_get_remove_ne. }
  assert (Hitems : _cache (put new_key v (get key c).2)
                   = rest ++ [(key, held); (new_key, v)]).
  { rewrite put_items, Hread, Hmax, (od_remove_absent _ _ Habsent). simpl.
    rewrite decide_True.
    - by rewrite <- app_assoc.
    - rewrite !length_app. simpl in *. lia. }
  split; [ exact Hitems | ]. rewrite Hitems.
  assert (Hrest : od_get key rest = None).
  { apply (od_get_tail key (oldest :: rest)). rewrite <- Hothers. apply od_get_remove. }
  rewrite od_get_app_None by exact Hrest. apply od_get_cons_eq.
Qed.

Lemma run_op_counts (c : t V) (o : op V) :
  _hit_count c ≤ _hit_count (run_op c o) ∧
  _miss_count c ≤ _miss_count (run_op c o) ∧
  _hit_count (run_op c o) + _miss_count (run_op c o) =
    _hit_count c + _miss_count c + Z.of_nat (gets [o]).
Proof.
  destruct o as [key|key v|]; unfold gets; simpl.
  - unfold get, _get_impl. destruct (od_contains key (_cache c)); simpl;
      repeat split; lia.
  - repeat split; lia.
  - repeat split; lia.
Qed.

(** X7: the counters account for the reads: after any calls the hits
    and the misses have grown, together, by the number of [get] calls;
    neither ever goes down, [put] does not count and [clear] resets
    nothing. *)
Theorem counters_count_gets (c : t V) (ops : list (op V)) :
  _hit_count c ≤ _hit_count (run_ops ops c) ∧
  _miss_count c ≤ _miss_count (run_ops ops c) ∧
  _hit_count (run_ops ops c) + _miss_count (run_ops ops c) =
    _hit_count c + _miss_count c + Z.of_nat (gets ops).
Proof.
  unfold run_ops. revert c. induction ops as [|o ops IH]; intros c; simpl.
  - unfold gets. simpl. repeat split; lia.
  - destruct (run_op_counts c o) as (Hh & Hm & Hsum).
    destruct (IH (run_op c o)) as (Hh' & Hm' & Hsum').
    assert (gets (o :: ops) = (gets [o] + gets ops)%nat) as ->.
    { unfold gets. simpl. destruct o; simpl; lia. }
    repeat split; lia.
Qed.

End CacheProperties.

(** ** Properties of the extensions of an entity *)

Section ExtensionProperties.

Context {E : Type}.

Import xEntityCache.

Lemma od_get_setitem_ne (key k : string) (v : E) (d : OrderedDict E) :
  k ≠ key → od_get k (od_setitem key v d) = od_get k d.
Proof.
  intros Hne. unfold od_setitem. destruct (od_contains key d).
  - unfold od_get. induction d as [|[k0 v0] d IH]; [ reflexivity | ].
    cbn [List.map List.find fst]. destruct (decide (k0 = key)) as [->|Hk0].
    + rewrite (bool_decide_eq_true_2 (key = key)) by reflexivity. cbn [fst].
      rewrite !bool_decide_eq_false_2 by congruence. exact IH.
    + rewrite (bool_decide_eq_false_2 (k0 = key)) by exact Hk0. cbn [fst].
      destruct (bool_decide (k0 = k)); [ reflexivity | exact IH ].
  - destruct (od_get k d) as [v0|] eqn:Hk.
    + by apply od_get_app_Some.
    + rewrite od_get_app_None by exact Hk. apply od_get_singleton_ne. congruence.
Qed.

Lemma od_contains_get (key : string) (d : OrderedDict E) :
  od_contains key d = bool_decide (is_Some (od_get key d)).
Proof. reflexivity. Qed.

Lemma od_contains_false (key : string) (d : OrderedDict E) :
  od_contains key d = false ↔ od_get key d = None.
Proof.
  unfold od_contains. rewrite bool_decide_eq_false.
  destruct (od_get key d); split; intros H; try done.
  destruct H. eauto.
Qed.

(** X28: after an extension is registered under a name, that name gives
    the extension and counts as present; every other name gives what it
    gave before; and the list of names is the old one, with the name
    appended when it was not there yet. *)
Theorem registered_extension_is_found (name n : string) (extension : E)
    (exts : OrderedDict E) :
  let out := register_extension name extension exts in
  out.1 = Ok tt ∧
  get_extension name out.2 = Some extension ∧
  has_extension name out.2 = true ∧
  (n ≠ name →
     get_extension n out.2 = get_extension n exts ∧
     has_extension n out.2 = has_extension n exts) ∧
  list_extensions out.2 =
    if has_extension name exts then list_extensions exts
    else list_extensions exts ++ [name].
Proof.
  unfold register_extension, get_extension, has_extension, list_extensions, modify.
  cbn [fst snd].
  split_and!.
  - reflexivity.
  - apply od_get_setitem.
  - rewrite od_contains_get, od_get_setitem. apply bool_decide_eq_true_2. eauto.
  - intros Hne. rewrite !od_contains_get, od_get_setitem_ne by exact Hne. done.
  - unfold od_setitem. destruct (od_contains name exts).
    + apply od_keys_setitem_present.
    + unfold od_keys. by rewrite fmap_app.
Qed.

(** X29: removing an extension answers whether the name was present
    and leaves the name absent; every other name gives what it gave
    before, the remaining names keep their order, and removing an
    absent name changes nothing. *)
Theorem removed_extension_is_gone (name n : string) (exts : OrderedDict E) :
  let out := remove_extension name exts in
  out.1 = Ok (has_extension name exts) ∧
  has_extension name out.2 = false ∧
  get_extension name out.2 = None ∧
  (n ≠ name → get_extension n out.2 = get_extension n exts) ∧
  list_extensions out.2 =
    List.filter (λ k, negb (bool_decide (k = name))) (list_extensions exts) ∧
  (has_extension name exts = false → out.2 = exts).
Proof.
  unfold remove_extension, get_extension, has_extension, list_extensions.
  destruct (od_contains name exts) eqn:Hin; cbn [fst snd].
  - split_and!; try reflexivity.
    + apply od_contains_false, od_get_remove.
    + apply od_get_remove.
    + intros Hne. by apply od_get_remove_ne.
    + apply od_keys_remove.
    + discriminate.
  - pose proof Hin as Hnone. apply od_contains_false in Hnone.
    split_and!; try done.
    rewrite <- od_keys_remove. by rewrite od_remove_absent.
Qed.

End ExtensionProperties.


(** ** The runtime on concrete entities

    The flat store, the stepping clock, numbered identifiers and tally
    timestamps; the registered actions are of type [unit] and do
    nothing. Where a facade reads its own [state] or [schema], the read
    is that of the class [xEntity] as the performance metaclass makes
    it: a direct property without a value. *)

Lemma flat_store_round_trip : FieldStoreRoundTrip flat_store.
Proof. intros m. reflexivity. Qed.


Lemma length_tally (n : nat) : String.length (tally n) = n.
Proof. induction n as [|n IH]; simpl; [ reflexivity | by rewrite IH ]. Qed.

Lemma tally_round_trip (t : Z) : tally_fromisoformat (tally_isoformat t) = Some t.
Proof.
  unfold tally_fromisoformat, tally_isoformat.
  case_decide; rewrite length_tally; f_equal; lia.
Qed.

Lemma transition_outside_table_raises_witness :
  let e := fresh_entity step_clock numbered_uuid unit first_world None None None in
  let err := xEntityStateError (Some DRAFT) COMMITTED (Some "Transition not allowed") in
  ¬ table_allows (state (_metadata unit e)) COMMITTED ∧
  _transition_to step_clock unit COMMITTED (example_world, e)
    = (Raise err, (example_world, e)) ∧
  details err = [("current_state", Some DRAFT); ("target_state", Some COMMITTED);
                 ("reason", Some "Transition not allowed")] ∧
  message err = "Cannot transition from 'draft' to 'committed': Transition not allowed".
Proof.
  intros e err.
  assert (Hno : ¬ table_allows (state (_metadata unit e)) COMMITTED)
    by (unfold table_allows; simpl; unfold DRAFT, COMMITTED, VALIDATED, ARCHIVED;
        intuition discriminate).
  split; [ exact Hno | ].
  destruct (transition_outside_table_raises step_clock unit example_world e COMMITTED Hno)
    as (err' & Hrun & -> & Hdetails & _).
  split; [ exact Hrun | ]. split; [ exact Hdetails | reflexivity ].
Defined.

Lemma to_validated_iff_schema_pass_witness :
  let e := fresh_entity step_clock numbered_uuid unit first_world (Some age_schema)
             (Some (inl {[ "age" := 200 ]})) None in
  table_allows (state (_metadata unit e)) VALIDATED ∧
  let '(r, (w', e')) := _transition_to step_clock unit VALIDATED (example_world, e) in
  (r = Ok tt ↔ schema_pass unit e = true) ∧
  (schema_pass unit e = true →
     state (_metadata unit e') = VALIDATED ∧
     version (_metadata unit e') = version (_metadata unit e) + 1) ∧
  (schema_pass unit e = false →
     r = Raise (xEntityStateError (Some (state (_metadata unit e))) VALIDATED
                  (Some "Validation failed")) ∧
     state (_metadata unit e') = state (_metadata unit e) ∧
     version (_metadata unit e') = version (_metadata unit e)).
Proof.
  intros e.
  assert (Hyes : table_allows (state (_metadata unit e)) VALIDATED)
    by (left; split; [ reflexivity | left; reflexivity ]).
  split; [ exact Hyes | ].
  exact (to_validated_iff_schema_pass step_clock unit example_world e Hyes).
Defined.


Lemma snapshot_round_trip_witness :
  (∀ t : Z, tally_fromisoformat (tally_isoformat t) = Some t) ∧
  FieldStoreRoundTrip flat_store ∧
  let e := fresh_entity step_clock numbered_uuid unit first_world (Some age_schema)
             (Some (inl {[ "age" := 30 ]})) None in
  ∃ e' w',
    xEntity_from_dict step_clock numbered_uuid tally_isoformat tally_fromisoformat quoted
      unit (xEntity_to_dict tally_isoformat unit (λ _, 0) e) None example_world
      = (Ok e', w') ∧
    to_native (_data unit e') = to_native (_data unit e) ∧
    state (_metadata unit e') = state (_metadata unit e) ∧
    version (_metadata unit e') = version (_metadata unit e) ∧
    tags (_metadata unit e') = tags (_metadata unit e) ∧
    metadata (_metadata unit e') = metadata (_metadata unit e).
Proof.
  split; [ exact tally_round_trip | ]. split; [ exact flat_store_round_trip | ].
  intros e.
  exact (snapshot_round_trip step_clock numbered_uuid tally_isoformat tally_fromisoformat
           quoted unit (λ _, 0) tally_round_trip flat_store_round_trip e None
           example_world).
Defined.

Lemma update_stops_at_first_failure_witness :
  let update := @xEntity_update Z _ _ guarded_store step_clock unit in
  let e := @fresh_entity Z _ _ guarded_store step_clock numbered_uuid unit
             first_world None None None in
  let s := (example_world, e) in
  applied_in_order (FieldStore0 := guarded_store) [("name", 1)] (_data unit s.2)
    = (Ok tt, {[ "name" := 1 ]}) ∧
  data_set (FieldStore := guarded_store) "locked" 2 {[ "name" := 1 ]}
    = (Raise (ForeignError "PermissionError"), {[ "name" := 1 ]}) ∧
  ∃ s2,
    update ([("name", 1)] ++ ("locked", 2) :: [("title", 3)]) s
      = (Raise (ForeignError "PermissionError"), s2) ∧
    _data unit s2.2 = {[ "name" := 1 ]} ∧
    version (_metadata unit s2.2) = version (_metadata unit s.2) + 1 ∧
    clock_reads s2.1 = S (clock_reads s.1).
Proof.
  intros update e s.
  assert (H1 : applied_in_order (FieldStore0 := guarded_store) [("name", 1)] (_data unit s.2)
               = (Ok tt, {[ "name" := 1 ]})) by reflexivity.
  assert (H2 : data_set (FieldStore := guarded_store) "locked" 2 {[ "name" := 1 ]}
               = (Raise (ForeignError "PermissionError"), {[ "name" := 1 ]}))
    by reflexivity.
  split; [ exact H1 | ]. split; [ exact H2 | ].
  destruct (@update_stops_at_first_failure Z _ _ guarded_store step_clock unit
              [("name", 1)] [("title", 3)] "locked" 2 s _ _ _ H1 H2)
    as (s1 & s2 & _ & _ & _ & Hrun & _ & Hdata & Hver & Hclock).
  exists s2. split; [ exact Hrun | ]. split; [ exact Hdata | ].
  split; [ exact Hver | ]. rewrite Hclock. simpl. lia.
Defined.

Lemma execute_unregistered_action_raises_witness :
  let e := (_register_action unit "greet" tt
              (example_world,
               fresh_entity step_clock numbered_uuid unit first_world None None None)).2.2 in
  _actions unit e !! "missing" = None ∧
  xEntity_execute_action unit (λ _, false) (λ _, false)
      (λ _ _, mret None) (λ _ _, mret None) (λ _ _, mret None)
      "missing" [] (example_world, e) =
    (Raise (xEntityActionError "missing" "Action not registered"), (example_world, e)).
Proof.
  intros e.
  assert (Hnone : _actions unit e !! "missing" = None) by reflexivity.
  split; [ exact Hnone | ].
  exact (execute_unregistered_action_raises unit (λ _, false) (λ _, false)
           (λ _ _, mret None) (λ _ _, mret None) (λ _ _, mret None)
           example_world e "missing" [] Hnone).
Defined.

Lemma validate_without_schema_witness :
  let e := fresh_entity step_clock numbered_uuid unit first_world None
             (Some (inl {[ "age" := 200 ]})) None in
  _schema unit e = None ∧
  (xEntity_validate unit (example_world, e)).1 = Ok true ∧
  (xEntity_validate_or_raise unit (example_world, e)).1 = Ok tt.
Proof.
  intros e. split; [ reflexivity | ].
  exact (validate_without_schema unit example_world e eq_refl).
Defined.

(** C6 as stated, at a cache of bound 0: the item put is evicted at
    once, and the [get] that follows returns [None] and counts a miss. *)
Lemma put_then_get_bound_zero :
  let c := xEntityCache.__init__ (V := Z) 0 in
  let '(r, c') := xEntityCache.get "k" (xEntityCache.put "k" 7 c) in
  r = None ∧ r ≠ Some 7 ∧
  xEntityCache._hit_count c' = xEntityCache._hit_count c ∧
  xEntityCache._miss_count c' = xEntityCache._miss_count c + 1.
Proof. vm_compute. repeat split; discriminate. Qed.

Lemma put_get_hit_and_lru_eviction_witness :
  (1 ≤ xEntityCache._max_size (xEntityCache.__init__ (V := Z) 2) ∧
   let '(r, c') :=
     xEntityCache.get "k" (xEntityCache.put "k" 7 (xEntityCache.__init__ 2)) in
   r = Some 7 ∧
   xEntityCache._hit_count c' = xEntityCache._hit_count (xEntityCache.__init__ (V := Z) 2) + 1 ∧
   xEntityCache._miss_count c' = xEntityCache._miss_count (xEntityCache.__init__ (V := Z) 2)) ∧
  ("a" ≠ "b" ∧ "a" ≠ "c" ∧ "b" ≠ "c" ∧
   xEntityCache._cache
     (xEntityCache.put "c" 3 (xEntityCache.put "b" 2
        (xEntityCache.put "a" 1 (xEntityCache.__init__ 2))))
   = [("b", 2); ("c", 3)]).
Proof.
  destruct (put_get_hit_and_lru_eviction (V := Z)) as [Hget Hevict].
  assert (Hbound : 1 ≤ xEntityCache._max_size (xEntityCache.__init__ (V := Z) 2))
    by (simpl; lia).
  assert (Hab : "a" ≠ "b") by discriminate.
  assert (Hac : "a" ≠ "c") by discriminate.
  assert (Hbc : "b" ≠ "c") by discriminate.
  split.
  - split; [ exact Hbound | ]. exact (Hget (xEntityCache.__init__ 2) "k" 7 Hbound).
  - split; [ exact Hab | ]. split; [ exact Hac | ]. split; [ exact Hbc | ].
    exact (Hevict "a" "b" "c" 1 2 3 Hab Hac Hbc).
Defined.

(** C4 on the code: an entity with identifier ["uuid-0"] that was set
    once and validated has version 3 and state [VALIDATED]; its copy
    has the same identifier, version 3 and state [VALIDATED], not a new
    identifier, version 1 and state [DRAFT]. The field data is copied.
    This is so whether [self.schema] is read as the class body declares
    it or through the direct property the metaclass puts in its
    place. *)
Theorem copy_of_changed_entity :
  let e := fresh_entity step_clock numbered_uuid unit first_world None None None in
  let s := (xEntity_to_validated step_clock unit
              (xEntity_set step_clock unit "name" 7 (example_world, e)).2).2 in
  let copied self_schema :=
    ∃ copy w',
      xEntity_copy step_clock numbered_uuid tally_isoformat tally_fromisoformat quoted unit
        (λ _, 0) self_schema s.2 s.1 = (Ok copy, w') ∧
      id (_metadata unit copy) = id (_metadata unit s.2) ∧
      version (_metadata unit copy) = 3 ∧
      state (_metadata unit copy) = VALIDATED ∧
      to_native (_data unit copy) = to_native (_data unit s.2) in
  (id (_metadata unit s.2) = "uuid-0" ∧ version (_metadata unit s.2) = 3 ∧
   state (_metadata unit s.2) = VALIDATED) ∧
  copied (declared_schema unit) ∧ copied (direct_view unit None).
Proof.
  intros e s copied. split; [ repeat split | ].
  assert (Hcopied : ∀ self_schema schema, self_schema s.2 = Ok schema → copied self_schema).
  { intros self_schema schema Hread.
    pose proof (copy_has_source_metadata step_clock numbered_uuid tally_isoformat
                  tally_fromisoformat quoted unit (λ _, 0) self_schema tally_round_trip
                  s.2 s.1) as Hcopy.
    rewrite Hread in Hcopy. destruct Hcopy as (copy & w' & Hrun & Hmeta & Hdata & _).
    exists copy, w'. split; [ exact Hrun | ]. rewrite Hmeta, Hdata. repeat split. }
  split; eapply Hcopied; reflexivity.
Qed.

(** C5 on the code: with validation enabled (the default
    configuration), the setter of the direct property ["age"] (0 to
    150) stores 200, which its schema rejects, and raises nothing; the
    getter then returns 200. The instance is one of a class that has
    the property and nothing under its private name, with an attribute
    dictionary. The setter of the delegated property refuses the same
    value. *)
Theorem direct_setter_stores_rejected_age :
  let age_field := {| validate v := bool_decide (0 ≤ v ≤ 150); _default := None |} in
  let age := PropertyInfo__init__ "age" (Some age_field) None in
  let self := {| __class__ := {[ "age" := DirectProperty age ]}; __dict__ := Some ∅;
                 slot_values := ∅; data := (∅ : gmap string Z) |} in
  schema age = Some age_field ∧
  enable_validation default_config = true ∧
  validate age_field 200 = false ∧
  (_create_direct_property pretty default_config age).2 200 self =
    (Ok tt, {| __class__ := {[ "age" := DirectProperty age ]};
               __dict__ := Some {[ "_age" := 200 ]}; slot_values := ∅; data := ∅ |}) ∧
  (_create_direct_property pretty default_config age).1
    ((_create_direct_property pretty default_config age).2 200 self).2 = Ok (Some 200) ∧
  (_create_delegated_property pretty default_config age).2 200 self =
    (Raise (ValueError "Validation failed for age: 200"), self).
Proof. repeat split. Qed.

(** ** The cache, the lifecycle and the configuration on concrete inputs *)

Lemma cache_never_exceeds_bound_witness :
  let c := xEntityCache.__init__ (V := Z) 2 in
  let ops := [xEntityCache.Put "a" 1; xEntityCache.Put "b" 2; xEntityCache.Get "a";
              xEntityCache.Put "c" 3; xEntityCache.Clear; xEntityCache.Put "d" 4] in
  Z.of_nat (length (xEntityCache._cache c)) ≤ xEntityCache._max_size c ∧
  Z.of_nat (length (xEntityCache._cache (xEntityCache.run_ops ops c)))
    ≤ xEntityCache._max_size c ∧
  xEntityCache._max_size (xEntityCache.run_ops ops c) = xEntityCache._max_size c.
Proof.
  intros c ops.
  assert (Hfits : Z.of_nat (length (xEntityCache._cache c)) ≤ xEntityCache._max_size c)
    by (simpl; lia).
  split; [ exact Hfits | ].
  exact (cache_never_exceeds_bound c ops Hfits).
Defined.

Lemma put_held_key_replaces_witness :
  let c := xEntityCache.put "b" 2 (xEntityCache.put "a" 1 (xEntityCache.__init__ (V := Z) 2)) in
  xEntityCache.od_get "a" (xEntityCache._cache c) = Some 1 ∧
  Z.of_nat (length (xEntityCache._cache c)) ≤ xEntityCache._max_size c ∧
  xEntityCache._cache (xEntityCache.put "a" 5 c) = [("b", 2); ("a", 5)] ∧
  xEntityCache.od_get "a" (xEntityCache._cache (xEntityCache.put "a" 5 c)) = Some 5.
Proof.
  intros c.
  assert (Hheld : xEntityCache.od_get "a" (xEntityCache._cache c) = Some 1) by reflexivity.
  assert (Hfits : Z.of_nat (length (xEntityCache._cache c)) ≤ xEntityCache._max_size c)
    by (simpl; lia).
  split; [ exact Hheld | ]. split; [ exact Hfits | ].
  destruct (put_held_key_replaces "a" 5 1 c Hheld Hfits) as (Hitems & Hget & _).
  split; [ exact Hitems | exact Hget ].
Defined.

Lemma put_keeps_all_but_oldest_witness :
  let c := xEntityCache.put "b" 2 (xEntityCache.put "a" 1 (xEntityCache.__init__ (V := Z) 2)) in
  NoDup (xEntityCache.od_keys (xEntityCache._cache c)) ∧ "a" ≠ "c" ∧
  (xEntityCache.od_get "a" (xEntityCache._cache (xEntityCache.put "c" 3 c))
     = xEntityCache.od_get "a" (xEntityCache._cache c) ∨
   head (xEntityCache.od_keys (xEntityCache.od_remove "c" (xEntityCache._cache c)))
     = Some "a" ∧
   xEntityCache.od_get "a" (xEntityCache._cache (xEntityCache.put "c" 3 c)) = None ∧
   xEntityCache._max_size c
     < Z.of_nat (length (xEntityCache.od_remove "c" (xEntityCache._cache c) ++ [("c", 3)]))).
Proof.
  intros c.
  assert (Hkeys : NoDup (xEntityCache.od_keys (xEntityCache._cache c)))
    by (refine (bool_decide_unpack _ _); vm_compute; exact I).
  assert (Hne : "a" ≠ "c") by discriminate.
  split; [ exact Hkeys | ]. split; [ exact Hne | ].
  exact (put_keeps_all_but_oldest "c" "a" 3 c Hkeys Hne).
Defined.

Lemma get_refreshes_recency_witness :
  let c := xEntityCache.put "b" 2 (xEntityCache.put "a" 1 (xEntityCache.__init__ (V := Z) 2)) in
  NoDup (xEntityCache.od_keys (xEntityCache._cache c)) ∧
  xEntityCache.od_get "a" (xEntityCache._cache c) = Some 1 ∧
  xEntityCache.od_get "c" (xEntityCache._cache c) = None ∧
  Z.of_nat (length (xEntityCache._cache c)) = xEntityCache._max_size c ∧
  (2 ≤ length (xEntityCache._cache c))%nat ∧
  ∃ oldest rest,
    xEntityCache.od_remove "a" (xEntityCache._cache c) = oldest :: rest ∧
    xEntityCache._cache (xEntityCache.put "c" 3 (xEntityCache.get "a" c).2)
      = rest ++ [("a", 1); ("c", 3)] ∧
    xEntityCache.od_get "a"
      (xEntityCache._cache (xEntityCache.put "c" 3 (xEntityCache.get "a" c).2)) = Some 1.
Proof.
  intros c.
  assert (Hkeys : NoDup (xEntityCache.od_keys (xEntityCache._cache c)))
    by (refine (bool_decide_unpack _ _); vm_compute; exact I).
  assert (Hheld : xEntityCache.od_get "a" (xEntityCache._cache c) = Some 1) by reflexivity.
  assert (Hnew : xEntityCache.od_get "c" (xEntityCache._cache c) = None) by reflexivity.
  assert (Hfull : Z.of_nat (length (xEntityCache._cache c)) = xEntityCache._max_size c)
    by reflexivity.
  assert (Htwo : (2 ≤ length (xEntityCache._cache c))%nat) by (simpl; lia).
  split; [ exact Hkeys | ]. split; [ exact Hheld | ]. split; [ exact Hnew | ].
  split; [ exact Hfull | ]. split; [ exact Htwo | ].
  exact (get_refreshes_recency "a" "c" 1 3 c Hkeys Hheld Hnew Hfull Htwo).
Defined.

Lemma transition_refused_from_unknown_or_same_state_witness :
  let e := fresh_entity step_clock numbered_uuid unit first_world None None None in
  (¬ known_state (state (_metadata unit e)) ∨ ¬ known_state "deleted" ∨
   "deleted" = state (_metadata unit e)) ∧
  _transition_to step_clock unit "deleted" (example_world, e) =
    (Raise (xEntityStateError (Some (state (_metadata unit e))) "deleted"
              (Some "Transition not allowed")),
     (example_world, e)).
Proof.
  intros e.
  assert (Hout : ¬ known_state (state (_metadata unit e)) ∨ ¬ known_state "deleted" ∨
                 "deleted" = state (_metadata unit e))
    by (right; left; intros [H|[H|[H|H]]]; discriminate H).
  split; [ exact Hout | ].
  exact (transition_refused_from_unknown_or_same_state step_clock unit example_world e
           "deleted" Hout).
Defined.

Lemma reachable_state_known_witness :
  let e := fresh_entity step_clock numbered_uuid unit first_world None None None in
  let s := (run_call step_clock unit (direct_view unit None) (CallSet "name" 7)
              (example_world, e)).2 in
  reachable step_clock numbered_uuid unit (direct_view unit None) s ∧
  known_state (state (_metadata unit s.2)).
Proof.
  intros e s.
  assert (Hreach : reachable step_clock numbered_uuid unit (direct_view unit None) s).
  { apply reach_call.
    apply (reach_init step_clock numbered_uuid unit (direct_view unit None)
             first_world None None None).
    reflexivity. }
  split; [ exact Hreach | ].
  exact (reachable_state_known step_clock numbered_uuid unit (direct_view unit None)
           s Hreach).
Defined.

Lemma accepted_transition_changes_only_lifecycle_witness :
  let e := fresh_entity step_clock numbered_uuid unit first_world None
             (Some (inl {[ "age" := 30 ]})) None in
  let out := _transition_to step_clock unit VALIDATED (example_world, e) in
  out = (Ok tt, (out.2.1, out.2.2)) ∧
  table_allows (state (_metadata unit e)) VALIDATED ∧
  out.2.1 = tick example_world ∧
  state (_metadata unit out.2.2) = VALIDATED ∧
  _data unit out.2.2 = _data unit e ∧
  _cache unit out.2.2 = _cache unit e.
Proof.
  intros e out.
  assert (Hrun : _transition_to step_clock unit VALIDATED (example_world, e)
                 = (Ok tt, (out.2.1, out.2.2))) by reflexivity.
  split; [ exact Hrun | ].
  destruct (accepted_transition_changes_only_lifecycle step_clock unit VALIDATED
              example_world out.2.1 e out.2.2 Hrun)
    as (Htable & _ & Hworld & Hmeta & Hdata & _ & _ & Hcache & _).
  split; [ exact Htable | ]. split; [ exact Hworld | ].
  split; [ by rewrite Hmeta | ]. split; [ exact Hdata | exact Hcache ].
Defined.

Lemma full_cycle_through_the_facade_witness :
  let e := fresh_entity step_clock numbered_uuid unit first_world (Some age_schema)
             (Some (inl {[ "age" := 30 ]})) None in
  state (_metadata unit e) = DRAFT ∧
  let '(r, (w', e')) :=
    full_cycle step_clock unit (direct_view unit None) (example_world, e) in
  r = Raise (xEntityStateError None DRAFT (Some "Can only restore from archived state")) ∧
  state (_metadata unit e') = ARCHIVED ∧
  version (_metadata unit e') = version (_metadata unit e) + 3.
Proof.
  intros e.
  assert (Hdraft : state (_metadata unit e) = DRAFT) by reflexivity.
  split; [ exact Hdraft | ].
  pose proof (full_cycle_through_the_facade step_clock unit (direct_view unit None)
                example_world e Hdraft) as Hcycle.
  cbv zeta in Hcycle.
  destruct (full_cycle step_clock unit (direct_view unit None) (example_world, e))
    as [[[]|err] [w' e']].
  - destruct Hcycle as (_ & Hread & _). discriminate Hread.
  - destruct Hcycle as [(Hfail & _)|(_ & _ & _ & Hstate & Hversion & _ & _ & Herr)];
      [ discriminate Hfail | ].
    rewrite (Herr eq_refl). split; [ reflexivity | ]. split; [ exact Hstate | exact Hversion ].
Defined.

Lemma from_dict_bad_created_at_is_partial_witness :
  let md : @MetadataDict Z :=
    {| k_id := Some "loaded"; k_type := Some "user"; k_state := Some COMMITTED;
       k_version := Some 9; k_created_at := Some "yesterday"; k_updated_at := None;
       k_tags := Some ["x"]; k_metadata := None |} in
  let d : @EntityDict Z (gmap string Z) :=
    {| k__metadata := Some md; k__data := Some {[ "age" := 30 ]};
       k__schema := None; k__actions := None |} in
  let e := fresh_entity step_clock numbered_uuid unit first_world None None None in
  k__metadata d = Some md ∧ k_created_at md = Some "yesterday" ∧
  tally_fromisoformat "yesterday" = None ∧
  ∃ msg w' e',
    _from_dict step_clock numbered_uuid tally_isoformat tally_fromisoformat quoted unit d
      (example_world, e) = (Raise (ValueError msg), (w', e')) ∧
    id (_metadata unit e') = "loaded" ∧
    state (_metadata unit e') = COMMITTED ∧
    version (_metadata unit e') = 9 ∧
    created_at (_metadata unit e') = created_at (_metadata unit e) ∧
    tags (_metadata unit e') = tags (_metadata unit e) ∧
    _data unit e' = _data unit e.
Proof.
  intros md d e.
  assert (Hmd : k__metadata d = Some md) by reflexivity.
  assert (Hat : k_created_at md = Some "yesterday") by reflexivity.
  assert (Hbad : tally_fromisoformat "yesterday" = None) by reflexivity.
  split; [ exact Hmd | ]. split; [ exact Hat | ]. split; [ exact Hbad | ].
  destruct (from_dict_bad_created_at_is_partial step_clock numbered_uuid tally_isoformat
              tally_fromisoformat quoted unit d md "yesterday" None example_world e
              Hmd Hat Hbad)
    as (msg & w' & e' & Hrun & Hid & _ & Hstate & Hversion & Hcreated & _ & Htags & _
        & Hdata & _).
  exists msg, w', e'. split; [ exact Hrun | ]. split; [ exact Hid | ].
  split; [ exact Hstate | ]. split; [ exact Hversion | ]. split; [ exact Hcreated | ].
  split; [ exact Htags | exact Hdata ].
Defined.

Lemma snapshot_keeps_identity_drops_actions_witness :
  (∀ t : Z, tally_fromisoformat (tally_isoformat t) = Some t) ∧
  let e := (_register_action unit "greet" tt
              (example_world,
               fresh_entity step_clock numbered_uuid unit first_world None
                 (Some (inl {[ "age" := 30 ]})) (Some "user"))).2.2 in
  _actions unit e !! "greet" = Some tt ∧
  ∃ e',
    (xEntity_from_dict step_clock numbered_uuid tally_isoformat tally_fromisoformat quoted
       unit (xEntity_to_dict tally_isoformat unit (λ _, 0) e) None example_world).1
      = Ok e' ∧
    id (_metadata unit e') = id (_metadata unit e) ∧
    type_ (_metadata unit e') = type_ (_metadata unit e) ∧
    _actions unit e' = ∅.
Proof.
  split; [ exact tally_round_trip | ].
  intros e. split; [ reflexivity | ].
  destruct (snapshot_keeps_identity_drops_actions step_clock numbered_uuid tally_isoformat
              tally_fromisoformat quoted unit (λ _, 0) tally_round_trip e None
              example_world)
    as (e' & Hrun & Hid & Htype & _ & _ & _ & Hactions & _).
  exists e'. split; [ by rewrite Hrun | ]. split; [ exact Hid | ].
  split; [ exact Htype | exact Hactions ].
Defined.

Lemma direct_properties_do_not_interfere_witness :
  let age : @PropertyInfo Z := PropertyInfo__init__ "age" None None in
  let email : @PropertyInfo Z := PropertyInfo__init__ "email" None (Some 0) in
  let self := {| __class__ := {[ "age" := DirectProperty age;
                                 "email" := DirectProperty email ]};
                 __dict__ := Some ∅; slot_values := ∅; data := (∅ : gmap string Z) |} in
  let slotted := {| __class__ := __class__ self; __dict__ := None;
                    slot_values := ∅; data := (∅ : gmap string Z) |} in
  name age ≠ name email ∧
  (no_property (private_name age) self ∧ no_property (private_name email) self) ∧
  (no_property (private_name age) slotted ∧ no_property (private_name email) slotted) ∧
  (let out := (_create_direct_property pretty default_config age).2 30 self in
   out.1 = Ok tt ∧
   (_create_direct_property pretty default_config age).1 out.2 = Ok (Some 30) ∧
   (_create_direct_property pretty default_config email).1 out.2 = Ok (Some 0) ∧
   data out.2 = data self) ∧
  (_create_direct_property pretty default_config age).2 30 slotted
    = (Raise (ForeignError "AttributeError"), slotted).
Proof.
  intros age email self slotted.
  assert (Hne : name age ≠ name email) by discriminate.
  assert (Hage : no_property (private_name age) self) by (vm_compute; exact I).
  assert (Hemail : no_property (private_name email) self) by (vm_compute; exact I).
  assert (Hage' : no_property (private_name age) slotted) by (vm_compute; exact I).
  assert (Hemail' : no_property (private_name email) slotted) by (vm_compute; exact I).
  split; [ exact Hne | ]. split; [ by split | ]. split; [ by split | ].
  destruct (direct_properties_do_not_interfere pretty default_config age email 30 self
              Hne Hage Hemail) as (Hok & Hget & _ & Hother & Hdata).
  destruct (direct_properties_do_not_interfere pretty default_config age email 30 slotted
              Hne Hage' Hemail') as (Hok' & _ & Hraise & _).
  split.
  - assert (Hreturns : ((_create_direct_property pretty default_config age).2 30 self).1
                       = Ok tt) by (apply Hok; vm_compute; eauto).
    split; [ exact Hreturns | ]. split; [ exact (Hget Hreturns) | ].
    split; [ | exact Hdata ]. rewrite Hother. reflexivity.
  - apply Hraise. intros Hreturns. apply Hok' in Hreturns.
    vm_compute in Hreturns. by destruct Hreturns.
Defined.


Lemma auto_mode_selects_by_size_witness :
  let m := set_performance_mode AUTO xEntityConfigManager__init__ in
  performance_mode (_config m) = AUTO ∧
  (register_entity_creation "Invoice" 12 m).1 = MEMORY ∧
  (register_entity_creation "Tag" 2 m).1 = PERFORMANCE.
Proof.
  intros m.
  assert (Hauto : performance_mode (_config m) = AUTO) by reflexivity.
  split; [ exact Hauto | ].
  destruct (auto_mode_selects_by_size "Invoice" 12 m Hauto) as [[_ Hlarge] _].
  destruct (auto_mode_selects_by_size "Tag" 2 m Hauto) as [_ [_ Hsmall]].
  split.
  - apply Hlarge. left. simpl. lia.
  - apply Hsmall. simpl. lia.
Defined.

Lemma auto_mode_latches_to_memory_witness :
  let m0 :=
    {| _config := {| performance_mode := AUTO; enable_validation := true |};
       auto_property_threshold := 10; auto_instance_threshold := 2;
       _instance_count := 0; _property_counts := ∅ |} in
  let m := (register_all [("User", 3); ("Tag", 1)] m0).2 in
  performance_mode (_config m) = AUTO ∧
  auto_instance_threshold m ≤ _instance_count m ∧
  Forall (λ mode, mode = MEMORY) (register_all [("Note", 1); ("Tag", 1)] m).1.
Proof.
  intros m0 m.
  assert (Hauto : performance_mode (_config m) = AUTO) by reflexivity.
  assert (Hfull : auto_instance_threshold m ≤ _instance_count m) by (simpl; lia).
  split; [ exact Hauto | ]. split; [ exact Hfull | ].
  exact (auto_mode_latches_to_memory [("Note", 1); ("Tag", 1)] m Hauto Hfull).
Defined.
